(** * index.mjs: chunked, rate-limited summarisation of a PDF

    A shallow embedding of [src/index.mjs] and the properties of its
    chunker, its retrying summariser, its sequential orchestrator and its
    Lambda handler.

    - JavaScript strings are sequences of UTF-16 code units: [list N].
    - JavaScript numbers used as indices, sizes, counters and delays are
      integers here: [Z] (negative values occur: [indexOf] answers [-1]).
    - The [while] loop of the chunker need not terminate, so it carries
      fuel and answers [None] when the fuel runs out.
    - [async] code runs on one logical thread: it is modelled as a state
      and exception monad over the history of external events.  The
      external collaborators (Bedrock, S3, pdf-parse) are oracles that
      answer from the history so far.  [console.log] is not modelled. *)

From Stdlib Require Import ZArith NArith List Bool Lia String Ascii.
From Stdlib Require Import DecimalString.
From Equations Require Import Equations.
Import ListNotations.

Local Open Scope Z_scope.

(* ===================================================================== *)
(** ** JavaScript string primitives *)
(* ===================================================================== *)

Module JS.

Definition jsstring := list N.

(** An ASCII literal as a JavaScript string. *)
Definition lit (s : string) : jsstring :=
  List.map N_of_ascii (list_ascii_of_string s).

(** [s.length] of a string, [arr.length] of an array. *)
Definition length {A : Type} (s : list A) : Z := Z.of_nat (List.length s).

(** Does [s] begin with [pat]? *)
Fixpoint startsWith (pat s : jsstring) : bool :=
  match pat, s with
  | [], _ => true
  | _ :: _, [] => false
  | p :: pat', c :: s' => N.eqb p c && startsWith pat' s'
  end.

(** First match of [pat] in [s], where the head of [s] has index [i]. *)
Fixpoint indexOfFrom (pat s : jsstring) (i : Z) : Z :=
  if startsWith pat s then i
  else match s with
       | [] => -1
       | _ :: s' => indexOfFrom pat s' (i + 1)
       end.

(** Where [indexOf] starts to look: the position clamped to
    [0, s.length]. *)
Definition searchStart (s : jsstring) (position : Z) : Z :=
  Z.min (Z.max position 0) (length s).

(** [s.indexOf(pat, position)]: the search runs forward from the clamped
    position to the end of the string. *)
Definition indexOf (s pat : jsstring) (position : Z) : Z :=
  let start := searchStart s position in
  indexOfFrom pat (skipn (Z.to_nat start) s) start.

(** [s.includes(pat)] *)
Definition includes (s pat : jsstring) : bool :=
  negb (indexOf s pat 0 =? -1).

(** A relative index of [slice]: negative counts from the end. *)
Definition relIndex (len i : Z) : Z :=
  if i <? 0 then Z.max (len + i) 0 else Z.min i len.

(** [s.slice(start, end)] *)
Definition slice (s : jsstring) (start finish : Z) : jsstring :=
  let from := relIndex (length s) start in
  let to := relIndex (length s) finish in
  firstn (Z.to_nat (to - from)) (skipn (Z.to_nat from) s).

(** [arr.join(sep)] on an array of strings. *)
Fixpoint join (sep : jsstring) (arr : list jsstring) : jsstring :=
  match arr with
  | [] => []
  | [x] => x
  | x :: rest => x ++ sep ++ join sep rest
  end.

(** [s.replace(pat, rep)] with a string pattern: the first match only.
    (No replacement in this program contains a [$] pattern.) *)
Fixpoint replace (pat rep s : jsstring) : jsstring :=
  if startsWith pat s then rep ++ skipn (List.length pat) s
  else match s with
       | [] => []
       | c :: s' => c :: replace pat rep s'
       end.

(** [s.replace(/c/g, d)] for a one-character class. *)
Definition replaceAllChar (c d : N) (s : jsstring) : jsstring :=
  List.map (fun x => if N.eqb x c then d else x) s.

(** [String(n)] for a non-negative integer. *)
Definition ofNat (n : nat) : jsstring :=
  lit (NilZero.string_of_uint (Nat.to_uint n)).

(** Code unit at an index, if any. *)
Definition charAt (s : jsstring) (i : Z) : option N :=
  if i <? 0 then None else nth_error s (Z.to_nat i).

End JS.

Import JS.

(* ===================================================================== *)
(** ** The chunker (index.mjs, lines 15-35) *)
(* ===================================================================== *)

(** ['.'] *)
Definition period : jsstring := [46%N].

(** The default value of the parameter [chunkSize]. *)
Definition defaultChunkSize : Z := 80000.

(** One pass through the loop body, lines 20-28: the [endIndex] at which
    the chunk that starts at [startIndex] is cut. *)
Definition nextEndIndex (text : jsstring) (chunkSize startIndex : Z) : Z :=
  let endIndex := startIndex + chunkSize in
  if endIndex <? length text then
    let nextPeriod := indexOf text period (endIndex - 100) in
    if negb (nextPeriod =? -1) && (nextPeriod - endIndex <? 100)
    then nextPeriod + 1
    else endIndex
  else endIndex.

(** The [while] loop, lines 19-32, from the state [(startIndex, chunks)]. *)
Fixpoint splitLoop (fuel : nat) (text : jsstring) (chunkSize startIndex : Z)
    (chunks : list jsstring) : option (list jsstring) :=
  if startIndex <? length text then
    match fuel with
    | O => None
    | S fuel' =>
        let endIndex := nextEndIndex text chunkSize startIndex in
        splitLoop fuel' text chunkSize endIndex
                  (chunks ++ [slice text startIndex endIndex])
    end
  else Some chunks.

Definition splitTextIntoChunks (fuel : nat) (text : jsstring) (chunkSize : Z)
    : option (list jsstring) :=
  splitLoop fuel text chunkSize 0 [].

(** The call returns [chunks]: some amount of fuel is enough. *)
Definition splitReturns (text : jsstring) (chunkSize : Z)
    (chunks : list jsstring) : Prop :=
  exists fuel, splitTextIntoChunks fuel text chunkSize = Some chunks.

(** The call never returns. *)
Definition splitDiverges (text : jsstring) (chunkSize : Z) : Prop :=
  forall fuel, splitTextIntoChunks fuel text chunkSize = None.


(* ===================================================================== *)
(** ** External collaborators and the effect monad *)
(* ===================================================================== *)

(** A thrown [Error] object (an SDK exception, a [SyntaxError], a
    [TypeError]): the program reads its [message], a string, and nothing
    else. *)
Record Error := mkError { errName : jsstring; message : jsstring }.

(** What is sent to the model.  The fixed text of the two prompt templates
    (and the fixed model parameters) is left out; the holes of the
    templates are kept. *)
Inductive Request :=
| ChunkPrompt (text : jsstring) (position totalChunks : Z)
    (* lines 50-61: [${totalChunks}], [${chunkIndex + 1}], [${text}] *)
| FinalPrompt (sections : jsstring).
    (* lines 96-106: [${summaries.join(...)}] *)

Inductive Event :=
| EvInvoke (req : Request)                         (* bedrockClient.send *)
| EvWait (ms : Z)                                  (* await wait(ms) *)
| EvGetObject (bucket key : jsstring)              (* GetObjectCommand *)
| EvPutObject (bucket key content : jsstring) (stored : bool).
                                                   (* PutObjectCommand *)

Definition History := list Event.

(** How a call ends: with a value, or with a thrown error. *)
Inductive Completion (A : Type) :=
| Normal (a : A)
| Throw (e : Error).
Arguments Normal {A} a.
Arguments Throw {A} e.

Definition Async (A : Type) : Type := History -> Completion A * History.

Definition ret {A} (a : A) : Async A := fun h => (Normal a, h).

Definition bind {A B} (c : Async A) (k : A -> Async B) : Async B :=
  fun h =>
    match c h with
    | (Normal a, h1) => k a h1
    | (Throw e, h1) => (Throw e, h1)
    end.

Notation "x <- c ;; k" := (bind c (fun x => k))
  (at level 61, c at next level, right associativity).
Notation "c ;;; k" := (bind c (fun _ => k))
  (at level 61, right associativity).

(** A synchronous call that may throw. *)
Definition liftC {A} (c : Completion A) : Async A := fun h => (c, h).

(** The world outside the program.  Each oracle sees the history so far, so
    a service may answer differently from one call to the next. *)
Record Env := {
  (** [decodeURIComponent], which throws [URIError] on a malformed input *)
  decodeURIComponent : jsstring -> Completion jsstring;
  (** [s3Client.send(new GetObjectCommand(..))] and
      [Body.transformToByteArray()]: the bytes of the object *)
  s3GetObject : History -> jsstring -> jsstring -> Completion (list N);
  (** [pdfParse(buffer)] and [.text] *)
  pdfParse : list N -> Completion jsstring;
  (** [bedrockClient.send(command)], decoding of the response body and
      [.content[0].text]; a malformed response ends in [Throw] *)
  bedrockSend : History -> Request -> Completion jsstring;
  (** [s3Client.send(new PutObjectCommand(..))] *)
  s3PutObject : History -> jsstring -> jsstring -> jsstring -> Completion unit
}.

(** Line 12. *)
Definition wait (ms : Z) : Async unit :=
  fun h => (Normal tt, h ++ [EvWait ms]).

Definition invokeModel (env : Env) (req : Request) : Async jsstring :=
  fun h => (bedrockSend env h req, h ++ [EvInvoke req]).

Definition getObject (env : Env) (bucket key : jsstring) : Async (list N) :=
  fun h => (s3GetObject env h bucket key, h ++ [EvGetObject bucket key]).

Definition putObject (env : Env) (bucket key content : jsstring) : Async unit :=
  fun h =>
    match s3PutObject env h bucket key content with
    | Normal u => (Normal u, h ++ [EvPutObject bucket key content true])
    | Throw e => (Throw e, h ++ [EvPutObject bucket key content false])
    end.

(* ===================================================================== *)
(** ** The retrying summariser (lines 38-82) *)
(* ===================================================================== *)

(** ['Too many requests'] *)
Definition tooManyRequests : jsstring := lit "Too many requests".

(** The test of line 75 on the caught error. *)
Definition isThrottled (error : Error) : bool :=
  includes (message error) tooManyRequests.

(** What the recursion of [generateSummaryForChunk] decreases on. *)
Definition retriesLeft (retryCount : Z) : nat := Z.to_nat (3 - retryCount).
Arguments retriesLeft : simpl never.

Equations? generateSummaryForChunk (env : Env) (text : jsstring)
    (chunkIndex totalChunks retryCount : Z) (h : History)
    : Completion jsstring * History
    by wf (retriesLeft retryCount) lt :=
  generateSummaryForChunk env text chunkIndex totalChunks retryCount h
    with invokeModel env (ChunkPrompt text (chunkIndex + 1) totalChunks) h := {
    | (Normal summary, h1) => (Normal summary, h1)
    | (Throw error, h1)
        with Sumbool.sumbool_of_bool (isThrottled error && (retryCount <? 3)) := {
        | left _ =>
            generateSummaryForChunk env text chunkIndex totalChunks
              (retryCount + 1)
              (snd (wait (5000 * (retryCount + 1)) h1))
        | right _ => (Throw error, h1) } }.
Proof.
  apply andb_prop in e. destruct e as [_ Hlt].
  apply Z.ltb_lt in Hlt. unfold retriesLeft. lia.
Qed.

(* ===================================================================== *)
(** ** The reducer (lines 85-119) *)
(* ===================================================================== *)

(** ['\n\n--- Yeni Bölüm ---\n\n'] *)
Definition sectionSeparator : jsstring :=
  [10; 10]%N ++ lit "--- Yeni B" ++ [246%N] ++ lit "l" ++ [252%N]
    ++ lit "m ---" ++ [10; 10]%N.

Definition generateFinalSummary (env : Env) (summaries : list jsstring)
    : Async jsstring :=
  invokeModel env (FinalPrompt (join sectionSeparator summaries)).

(* ===================================================================== *)
(** ** The sequential orchestrator (lines 122-138) *)
(* ===================================================================== *)

(** The [for] loop from index [i]: [rest] is what is left of [chunks] from
    [i] on, [total] is [chunks.length]. *)
Fixpoint processLoop (env : Env) (rest : list jsstring) (i total : Z)
    (summaries : list jsstring) : Async (list jsstring) :=
  match rest with
  | [] => ret summaries
  | chunk :: rest' =>
      summary <- generateSummaryForChunk env chunk i total 0 ;;
      (if i <? total - 1 then wait 3000 else ret tt) ;;;
      processLoop env rest' (i + 1) total (summaries ++ [summary])
  end.

Definition processChunksSequentially (env : Env) (chunks : list jsstring)
    : Async (list jsstring) :=
  processLoop env chunks 0 (length chunks) [].

(* ===================================================================== *)
(** ** The Lambda handler (lines 140-206) *)
(* ===================================================================== *)

(** The part of the S3 event that the handler reads:
    [event.Records[0].s3.bucket.name] and [event.Records[0].s3.object.key]. *)
Record S3Event := { bucketName : jsstring; objectKey : jsstring }.

(** The object that [JSON.stringify] turns into the body of the response. *)
Inductive Body :=
| SuccessBody (msg summaryKey detailedSummaryKey : jsstring)
| FailureBody (error details : jsstring).

Record Response := { statusCode : Z; body : Body }.

(** ['\n\n=== YENİ BÖLÜM ===\n\n'] *)
Definition detailedDelimiter : jsstring :=
  [10; 10]%N ++ lit "=== YEN" ++ [304%N] ++ lit " B" ++ [214%N] ++ lit "L"
    ++ [220%N] ++ lit "M ===" ++ [10; 10]%N.

Definition summaryKeyOf (key : jsstring) : jsstring :=
  replace (lit ".pdf") (lit ".txt")
    (replace (lit "pdfs/") (lit "summaries/") key).

Definition detailedSummaryKeyOf (key : jsstring) : jsstring :=
  replace (lit ".pdf") (lit ".txt")
    (replace (lit "pdfs/") (lit "summaries/detailed_") key).

(** Lines 144-151: the key of the object and the text of the PDF. *)
Definition readDocument (env : Env) (event : S3Event)
    : Async (jsstring * jsstring) :=
  let bucket := bucketName event in
  key <- liftC (decodeURIComponent env
                  (replaceAllChar 43%N 32%N (objectKey event))) ;;
  pdfBuffer <- getObject env bucket key ;;
  fullText <- liftC (pdfParse env pdfBuffer) ;;
  ret (key, fullText).

(** Lines 161-195: everything after the chunker. *)
Definition summariseAndStore (env : Env) (bucket key : jsstring)
    (chunks : list jsstring) : Async Response :=
  chunkSummaries <- processChunksSequentially env chunks ;;
  wait 3000 ;;;
  finalSummary <- generateFinalSummary env chunkSummaries ;;
  let summaryKey := summaryKeyOf key in
  putObject env bucket summaryKey finalSummary ;;;
  let detailedSummaryKey := detailedSummaryKeyOf key in
  let detailedSummary := join detailedDelimiter chunkSummaries in
  putObject env bucket detailedSummaryKey detailedSummary ;;;
  ret {| statusCode := 200;
         body := SuccessBody
                   (lit "PDF successfully processed and summaries created")
                   summaryKey detailedSummaryKey |}.

(** The [catch] clause, lines 196-205. *)
Definition failureResponse (error : Error) : Response :=
  {| statusCode := 500;
     body := FailureBody (lit "Failed to process PDF") (message error) |}.

Definition catchAll (c : Async Response) : History -> Response * History :=
  fun h =>
    match c h with
    | (Normal r, h1) => (r, h1)
    | (Throw error, h1) => (failureResponse error, h1)
    end.

(** Fuel for the chunker on a text: one pass per code unit is enough at the
    default chunk size ([defaultChunk_total] below). *)
Definition chunkerFuel (text : jsstring) : nat := S (List.length text).

(** The handler; [None] would mean that the chunker never returns. *)
Definition handler (env : Env) (event : S3Event) (h : History)
    : option (Response * History) :=
  match readDocument env event h with
  | (Throw error, h1) => Some (failureResponse error, h1)
  | (Normal (key, fullText), h1) =>
      match splitTextIntoChunks (chunkerFuel fullText) fullText
              defaultChunkSize with
      | None => None
      | Some chunks =>
          Some (catchAll (summariseAndStore env (bucketName event) key chunks) h1)
      end
  end.

(** ** Observations on a history *)

(** The objects that were stored, in the order of the writes. *)
Fixpoint artifacts (h : History) : list (jsstring * jsstring) :=
  match h with
  | [] => []
  | EvPutObject _ key content true :: h' => (key, content) :: artifacts h'
  | _ :: h' => artifacts h'
  end.

(** The requests sent to the model, in order. *)
Fixpoint requests (h : History) : list Request :=
  match h with
  | [] => []
  | EvInvoke req :: h' => req :: requests h'
  | _ :: h' => requests h'
  end.

(** The waits, in order. *)
Fixpoint waits (h : History) : list Z :=
  match h with
  | [] => []
  | EvWait ms :: h' => ms :: waits h'
  | _ :: h' => waits h'
  end.

(* ===================================================================== *)
(** ** Vocabulary of the properties, sample documents and test doubles *)
(* ===================================================================== *)

(** No full stop at any index from [lo] up to, not including, [hi]. *)
Definition noPeriodIn (text : jsstring) (lo hi : Z) : Prop :=
  forall p, lo <= p < hi -> charAt text p <> Some 46%N.

(** The same, decided on a string. *)
Definition periodFree (s : jsstring) : bool :=
  forallb (fun c => negb (N.eqb c 46)) s.

(** [n] letters [a]. *)
Definition filler (n : Z) : jsstring := repeat 97%N (Z.to_nat n).

(** [".aa"]: a full stop at index 0. *)
Definition stallingText : jsstring := lit ".aa".

(** A full stop followed by 200 letters. *)
Definition leadingStopText : jsstring := period ++ filler 200.

(** 250 code units, the only full stop at index 120. *)
Definition forwardStopText : jsstring := filler 120 ++ period ++ filler 129.

(** 400 code units, no full stop. *)
Definition plainText : jsstring := filler 400.

(** 80,150 code units, the only full stop at index 80,070. *)
Definition document80150 : jsstring := filler 80070 ++ period ++ filler 79.

(** What the summariser of one segment may do: send [req], or wait. *)
Definition summariserEvent (req : Request) (ev : Event) : Prop :=
  ev = EvInvoke req \/ exists ms, ev = EvWait ms.

(** What the orchestrator may do on the segments whose 1-based position is
    above [lo] and at most [hi]: send a prompt for one of them, or wait. *)
Definition orchestratorEvent (lo hi : Z) (ev : Event) : Prop :=
  (exists text position total,
      ev = EvInvoke (ChunkPrompt text position total) /\ lo < position <= hi)
  \/ exists ms, ev = EvWait ms.

(** Errors as the services report them. *)
Definition throttledError : Error :=
  mkError (lit "ThrottlingException")
          (lit "Too many requests, please wait before trying again.").

Definition fatalError : Error :=
  mkError (lit "ValidationException") (lit "Malformed input request").

Definition storageError : Error :=
  mkError (lit "AccessDenied") (lit "Access Denied").

(** A model that is always overloaded. *)
Definition modelAlwaysThrottled (h : History) (req : Request)
    : Completion jsstring :=
  Throw throttledError.

(** A model that is overloaded on the first request only. *)
Definition modelThrottledOnce (h : History) (req : Request)
    : Completion jsstring :=
  match requests h with
  | [] => Throw throttledError
  | _ :: _ => Normal (lit "ozet")
  end.

(** A model that always fails with [error]. *)
Definition modelFailing (error : Error) (h : History) (req : Request)
    : Completion jsstring :=
  Throw error.

(** A model that answers ["summary-N"] for segment [N] and ["final"] for
    the reduce step. *)
Definition modelNumbered (h : History) (req : Request) : Completion jsstring :=
  match req with
  | ChunkPrompt _ position _ =>
      Normal (lit "summary-" ++ ofNat (Z.to_nat (position - 1)))
  | FinalPrompt _ => Normal (lit "final")
  end.

(** A model that is always overloaded for the segment at [position] and
    answers ["summary-N"] for every other segment [N]. *)
Definition modelThrottledAt (position : Z) (h : History) (req : Request)
    : Completion jsstring :=
  match req with
  | ChunkPrompt _ p _ =>
      if p =? position then Throw throttledError
      else Normal (lit "summary-" ++ ofNat (Z.to_nat (p - 1)))
  | FinalPrompt _ => Normal (lit "final")
  end.

(** A store that accepts every write. *)
Definition storeAccepting (h : History) (bucket key content : jsstring)
    : Completion unit :=
  Normal tt.

(** A store that accepts one write and refuses the next ones. *)
Definition storeRefusingSecond (h : History) (bucket key content : jsstring)
    : Completion unit :=
  match artifacts h with
  | [] => Normal tt
  | _ :: _ => Throw storageError
  end.

(** An environment whose document has the text [fullText]. *)
Definition stubEnv (fullText : jsstring)
    (model : History -> Request -> Completion jsstring)
    (store : History -> jsstring -> jsstring -> jsstring -> Completion unit)
    : Env :=
  {| decodeURIComponent := fun s => Normal s;
     s3GetObject := fun _ _ _ => Normal [];
     pdfParse := fun _ => Normal fullText;
     bedrockSend := model;
     s3PutObject := store |}.

(** An environment whose document cannot be fetched. *)
Definition unreadableEnv (error : Error) : Env :=
  {| decodeURIComponent := fun s => Normal s;
     s3GetObject := fun _ _ _ => Throw error;
     pdfParse := fun _ => Normal [];
     bedrockSend := modelNumbered;
     s3PutObject := storeAccepting |}.

Definition sampleEvent : S3Event :=
  {| bucketName := lit "books"; objectKey := lit "pdfs/book.pdf" |}.

(** [out] is what the loop cuts from the cursor [startIndex] on: each
    chunk runs from the cursor to the cut chosen there, and the cursor has
    reached the end of the text when the chunks run out. *)
Fixpoint chunksFrom (text : jsstring) (chunkSize startIndex : Z)
    (out : list jsstring) : Prop :=
  match out with
  | [] => length text <= startIndex
  | chunk :: rest =>
      startIndex < length text /\
      chunk = slice text startIndex (nextEndIndex text chunkSize startIndex) /\
      chunksFrom text chunkSize (nextEndIndex text chunkSize startIndex) rest
  end.

(** [chunk[chunk.length - 1] === '.'] *)
Definition endsWithPeriod (chunk : jsstring) : Prop :=
  charAt chunk (length chunk - 1) = Some 46%N.

(** The events of [k] throttled attempts on [req] that start at retry
    count [retryCount]: each request is followed by its backoff wait. *)
Fixpoint backoff (req : Request) (retryCount : Z) (k : nat) : History :=
  match k with
  | O => []
  | S k' =>
      EvInvoke req :: EvWait (5000 * (retryCount + 1))
        :: backoff req (retryCount + 1) k'
  end.





(** A model that answers ["summary-N"] for segment [N] and fails the
    reduce step with [error]. *)
Definition modelFailingReduce (error : Error) (h : History) (req : Request)
    : Completion jsstring :=
  match req with
  | ChunkPrompt _ position _ =>
      Normal (lit "summary-" ++ ofNat (Z.to_nat (position - 1)))
  | FinalPrompt _ => Throw error
  end.

(** An environment whose object key cannot be decoded. *)
Definition undecodableEnv (error : Error) : Env :=
  {| decodeURIComponent := fun _ => Throw error;
     s3GetObject := fun _ _ _ => Normal [];
     pdfParse := fun _ => Normal [];
     bedrockSend := modelNumbered;
     s3PutObject := storeAccepting |}.

Definition uriError : Error :=
  mkError (lit "URIError") (lit "URI malformed").

(* ===================================================================== *)
(** ** Facts about the string primitives *)
(* ===================================================================== *)

Lemma length_nonneg {A} (s : list A) : 0 <= length s.
Proof. unfold length. lia. Qed.

Lemma indexOfFrom_single (c : N) (s : jsstring) (i : Z) :
  indexOfFrom [c] s i =
  match s with
  | [] => -1
  | x :: s' => if N.eqb c x then i else indexOfFrom [c] s' (i + 1)
  end.
Proof.
  destruct s as [|x s']; simpl; [reflexivity|].
  rewrite andb_true_r. reflexivity.
Qed.

(** The search for one code unit either fails, and the unit is absent, or
    stops at its first occurrence. *)
Lemma indexOfFrom_cases (c : N) (s : jsstring) : forall i, 0 <= i ->
  (indexOfFrom [c] s i = -1 /\ forall k, nth_error s k <> Some c) \/
  (exists k : nat,
      indexOfFrom [c] s i = i + Z.of_nat k /\
      nth_error s k = Some c /\
      forall j, (j < k)%nat -> nth_error s j <> Some c).
Proof.
  induction s as [|x s' IH]; intros i Hi; rewrite indexOfFrom_single.
  - left. split; [reflexivity|]. intros [|k]; discriminate.
  - destruct (N.eqb_spec c x) as [->|Hne].
    + right. exists 0%nat. repeat split; [lia | intros j Hj; lia].
    + destruct (IH (i + 1)) as [[Hnone Habs]|[k [Hk [Hnth Hfirst]]]]; [lia| |].
      * left. split; [assumption|].
        intros [|k]; simpl; [congruence | apply Habs].
      * right. exists (S k). repeat split; [lia | assumption |].
        intros [|j] Hj; simpl; [congruence | apply Hfirst; lia].
Qed.

Lemma charAt_skipn (s : jsstring) (n k : nat) :
  nth_error (skipn n s) k = charAt s (Z.of_nat n + Z.of_nat k).
Proof.
  unfold charAt.
  destruct (Z.ltb_spec (Z.of_nat n + Z.of_nat k) 0) as [H|_]; [lia|].
  replace (Z.to_nat (Z.of_nat n + Z.of_nat k)) with (n + k)%nat by lia.
  revert s. induction n as [|n IH]; intros s; [reflexivity|].
  destruct s as [|x s']; simpl; [destruct k; reflexivity | apply IH].
Qed.

Lemma charAt_lt_length (s : jsstring) (p : Z) (c : N) :
  charAt s p = Some c -> 0 <= p < length s.
Proof.
  unfold charAt, length. destruct (Z.ltb_spec p 0) as [|Hp]; [discriminate|].
  intros H. assert (Hn : nth_error s (Z.to_nat p) <> None) by congruence.
  apply nth_error_Some in Hn. lia.
Qed.

(** [indexOf] of one code unit: [-1] and no occurrence from the start of
    the search on, or the first occurrence from there on. *)
Lemma indexOf_cases (s : jsstring) (c : N) (position : Z) :
  (indexOf s [c] position = -1 /\
   forall p, searchStart s position <= p -> charAt s p <> Some c) \/
  (searchStart s position <= indexOf s [c] position < length s /\
   charAt s (indexOf s [c] position) = Some c /\
   forall p, searchStart s position <= p < indexOf s [c] position ->
             charAt s p <> Some c).
Proof.
  unfold indexOf. cbv zeta.
  set (st := searchStart s position).
  assert (Hst : 0 <= st <= length s).
  { unfold st, searchStart. pose proof (length_nonneg s). lia. }
  destruct (indexOfFrom_cases c (skipn (Z.to_nat st) s) st) as
    [[Hnone Habs]|[k [Hk [Hnth Hfirst]]]]; [lia| |].
  - left. split; [assumption|]. intros p Hp.
    specialize (Habs (Z.to_nat (p - st))).
    rewrite charAt_skipn in Habs.
    replace (Z.of_nat (Z.to_nat st) + Z.of_nat (Z.to_nat (p - st))) with p
      in Habs by lia.
    assumption.
  - right. rewrite Hk. rewrite charAt_skipn in Hnth.
    replace (Z.of_nat (Z.to_nat st)) with st in Hnth by lia.
    split; [|split].
    + apply charAt_lt_length in Hnth. lia.
    + assumption.
    + intros p Hp. specialize (Hfirst (Z.to_nat (p - st))).
      rewrite charAt_skipn in Hfirst.
      replace (Z.of_nat (Z.to_nat st) + Z.of_nat (Z.to_nat (p - st))) with p
        in Hfirst by lia.
      apply Hfirst. lia.
Qed.

(** [indexOf] finds a known first occurrence. *)
Lemma indexOf_first (s : jsstring) (c : N) (position k : Z) :
  searchStart s position <= k ->
  charAt s k = Some c ->
  (forall p, searchStart s position <= p < k -> charAt s p <> Some c) ->
  indexOf s [c] position = k.
Proof.
  intros Hle Hk Hbefore.
  destruct (indexOf_cases s c position) as [[_ Habs]|[Hr [Hat Hfirst]]].
  - exfalso. exact (Habs k Hle Hk).
  - destruct (Z.lt_trichotomy (indexOf s [c] position) k) as [Hlt|[Heq|Hgt]].
    + exfalso. apply (Hbefore (indexOf s [c] position)); [lia | assumption].
    + assumption.
    + exfalso. apply (Hfirst k); [lia | assumption].
Qed.


Lemma firstn_then_more {A} (l : list A) (n m : nat) :
  firstn n l ++ firstn m (skipn n l) = firstn (n + m) l.
Proof.
  revert l. induction n as [|n IH]; intros l; [reflexivity|].
  destruct l as [|x l']; simpl; [rewrite firstn_nil; reflexivity|].
  rewrite IH. reflexivity.
Qed.

(** [slice] with both indices inside the string. *)
Lemma slice_inside (s : jsstring) (a b : Z) :
  0 <= a -> a <= b ->
  slice s a b =
  firstn (Z.to_nat (Z.min b (length s)) - Z.to_nat (Z.min a (length s)))
         (skipn (Z.to_nat (Z.min a (length s))) s).
Proof.
  intros Ha Hab. unfold slice, relIndex.
  destruct (Z.ltb_spec a 0); [lia|]. destruct (Z.ltb_spec b 0); [lia|].
  f_equal. pose proof (length_nonneg s). lia.
Qed.

(** A chunk and the rest of the text after it make up the rest of the text
    before it. *)
Lemma slice_then_rest (s : jsstring) (a b : Z) :
  0 <= a -> a <= b ->
  slice s a b ++ skipn (Z.to_nat b) s = skipn (Z.to_nat a) s.
Proof.
  intros Ha Hab. rewrite slice_inside by assumption.
  pose proof (length_nonneg s) as Hlen. unfold length in *.
  destruct (Z.le_gt_cases (Z.of_nat (List.length s)) a) as [Hout|Hin].
  - rewrite (skipn_all2 s (n := Z.to_nat a)) by lia.
    rewrite (skipn_all2 s (n := Z.to_nat b)) by lia.
    rewrite (skipn_all2 s (n := Z.to_nat (Z.min a _))) by lia.
    rewrite firstn_nil. reflexivity.
  - replace (Z.min a (Z.of_nat (List.length s))) with a by lia.
    destruct (Z.le_gt_cases (Z.of_nat (List.length s)) b) as [Hbout|Hbin].
    + rewrite (skipn_all2 s (n := Z.to_nat b)) by lia.
      rewrite app_nil_r. apply firstn_all2. rewrite length_skipn. lia.
    + replace (Z.min b (Z.of_nat (List.length s))) with b by lia.
      rewrite <- (firstn_skipn (Z.to_nat b - Z.to_nat a)
                               (skipn (Z.to_nat a) s)) at 2.
      f_equal. rewrite skipn_skipn. f_equal. lia.
Qed.

(** A chunk cut from inside the text to a later index is not empty. *)
Lemma slice_nonempty (s : jsstring) (a b : Z) :
  0 <= a < length s -> a < b -> slice s a b <> [].
Proof.
  intros Ha Hab. rewrite slice_inside by lia. unfold length in *.
  intros Hnil. apply (f_equal (@List.length N)) in Hnil.
  rewrite length_firstn, length_skipn in Hnil. simpl in Hnil. lia.
Qed.

(** A slice that runs to the end of the text or beyond. *)
Lemma slice_to_end (s : jsstring) (a b : Z) :
  0 <= a -> length s <= b -> slice s a b = slice s a (length s).
Proof.
  intros Ha Hb. pose proof (length_nonneg s).
  destruct (Z.le_gt_cases a (length s)).
  - rewrite !slice_inside by lia. do 2 f_equal. lia.
  - unfold slice, relIndex.
    destruct (Z.ltb_spec a 0); [lia|]. destruct (Z.ltb_spec b 0); [lia|].
    destruct (Z.ltb_spec (length s) 0); [lia|].
    replace (Z.to_nat (Z.min b (length s) - Z.min a (length s))) with 0%nat
      by lia.
    replace (Z.to_nat (Z.min (length s) (length s) - Z.min a (length s)))
      with 0%nat by lia.
    reflexivity.
Qed.

(* ===================================================================== *)
(** ** The chunker: progress, termination, coverage *)
(* ===================================================================== *)

(** The cut is the naive boundary or just after a full stop that lies in
    the text, at or after the start of the search, and less than 100 code
    units past the naive boundary. *)
Lemma nextEndIndex_cases (text : jsstring) (chunkSize startIndex : Z) :
  let endIndex := startIndex + chunkSize in
  let nextPeriod := indexOf text period (endIndex - 100) in
  nextEndIndex text chunkSize startIndex = endIndex \/
  (nextEndIndex text chunkSize startIndex = nextPeriod + 1 /\
   endIndex < length text /\
   searchStart text (endIndex - 100) <= nextPeriod < length text /\
   nextPeriod < endIndex + 100 /\
   charAt text nextPeriod = Some 46%N /\
   forall p, searchStart text (endIndex - 100) <= p < nextPeriod ->
             charAt text p <> Some 46%N).
Proof.
  intros endIndex nextPeriod. unfold nextEndIndex.
  fold endIndex. cbv zeta. fold nextPeriod.
  destruct (Z.ltb_spec endIndex (length text)) as [Hin|Hout]; [|left; reflexivity].
  destruct (Z.eqb_spec nextPeriod (-1)) as [Hnone|Hsome]; [left; reflexivity|].
  destruct (Z.ltb_spec (nextPeriod - endIndex) 100) as [Hnear|Hfar];
    [|left; reflexivity].
  right. simpl.
  destruct (indexOf_cases text 46%N (endIndex - 100)) as [[Habs _]|[Hr [Hat Hfirst]]].
  - exfalso. apply Hsome. exact Habs.
  - fold period in Hr, Hat, Hfirst. fold nextPeriod in Hr, Hat, Hfirst.
    repeat split; try assumption; lia.
Qed.

(** With a chunk size of 100 or more the search starts at the cursor or
    later, so every pass moves the cursor forward. *)
Lemma nextEndIndex_advances (text : jsstring) (chunkSize startIndex : Z) :
  100 <= chunkSize -> 0 <= startIndex ->
  startIndex < nextEndIndex text chunkSize startIndex.
Proof.
  intros Hcs Hstart.
  destruct (nextEndIndex_cases text chunkSize startIndex)
    as [->|[-> [Hin [Hr _]]]]; [lia|].
  unfold searchStart in Hr. lia.
Qed.

(** The chunks already cut are kept as they are. *)
Lemma splitLoop_acc (fuel : nat) (text : jsstring) (chunkSize : Z) :
  forall startIndex chunks,
    splitLoop fuel text chunkSize startIndex chunks =
    option_map (app chunks) (splitLoop fuel text chunkSize startIndex []).
Proof.
  induction fuel as [|fuel IH]; intros startIndex chunks; simpl.
  - destruct (startIndex <? length text); simpl;
      [reflexivity | rewrite app_nil_r; reflexivity].
  - destruct (startIndex <? length text); simpl;
      [|rewrite app_nil_r; reflexivity].
    rewrite IH.
    rewrite (IH _ [slice text startIndex
                     (nextEndIndex text chunkSize startIndex)]).
    destruct (splitLoop fuel text chunkSize _ []); simpl; [|reflexivity].
    rewrite <- app_assoc. reflexivity.
Qed.

(** From any cursor, with a chunk size of 100 or more and one unit of fuel
    per code unit left, the loop returns non-empty chunks that make up the
    rest of the text. *)
Lemma splitLoop_covers (text : jsstring) (chunkSize : Z) :
  100 <= chunkSize ->
  forall fuel startIndex,
    0 <= startIndex ->
    (Z.to_nat (length text - startIndex) <= fuel)%nat ->
    exists out,
      splitLoop fuel text chunkSize startIndex [] = Some out /\
      List.concat out = skipn (Z.to_nat startIndex) text /\
      Forall (fun chunk => chunk <> []) out.
Proof.
  intros Hcs. induction fuel as [|fuel IH]; intros startIndex Hstart Hfuel.
  - simpl. destruct (Z.ltb_spec startIndex (length text)) as [Hin|Hout]; [lia|].
    exists []. repeat split; [|constructor].
    simpl. symmetry. apply skipn_all2. unfold length in Hout. lia.
  - simpl. destruct (Z.ltb_spec startIndex (length text)) as [Hin|Hout].
    + pose proof (nextEndIndex_advances text chunkSize startIndex Hcs Hstart)
        as Hadv.
      set (endIndex := nextEndIndex text chunkSize startIndex) in *.
      destruct (IH endIndex) as [out [Hrun [Hcat Hne]]]; [lia | lia |].
      rewrite splitLoop_acc, Hrun. simpl.
      eexists. split; [reflexivity|]. split.
      * simpl. rewrite Hcat. apply slice_then_rest; lia.
      * constructor; [apply slice_nonempty; lia | assumption].
    + exists []. repeat split; [|constructor].
      simpl. symmetry. apply skipn_all2. unfold length in Hout. lia.
Qed.

(** With a chunk size of 100 or more the chunker returns, with one unit of
    fuel per code unit, non-empty chunks that make up the text. *)
Lemma coverage_from_100 (text : jsstring) (chunkSize : Z) :
  100 <= chunkSize ->
  exists chunks,
    splitTextIntoChunks (S (List.length text)) text chunkSize = Some chunks /\
    List.concat chunks = text /\
    Forall (fun chunk => chunk <> []) chunks.
Proof.
  intros Hcs.
  destruct (splitLoop_covers text chunkSize Hcs (S (List.length text)) 0)
    as [out [Hrun [Hcat Hne]]]; [lia | unfold length; lia |].
  exists out. repeat split; assumption.
Qed.

(** At the default chunk size the handler's fuel is always enough. *)
Lemma defaultChunk_total (text : jsstring) :
  exists chunks,
    splitTextIntoChunks (chunkerFuel text) text defaultChunkSize = Some chunks.
Proof.
  destruct (coverage_from_100 text defaultChunkSize) as [chunks [Hrun _]].
  - unfold defaultChunkSize. lia.
  - exists chunks. exact Hrun.
Qed.

(** More fuel does not change what the loop returns. *)
Lemma splitLoop_more_fuel (text : jsstring) (chunkSize : Z) :
  forall fuel startIndex chunks out,
    splitLoop fuel text chunkSize startIndex chunks = Some out ->
    forall fuel', (fuel <= fuel')%nat ->
      splitLoop fuel' text chunkSize startIndex chunks = Some out.
Proof.
  induction fuel as [|fuel IH]; intros startIndex chunks out Hrun fuel' Hle.
  - simpl in Hrun. destruct (startIndex <? length text) eqn:Hc; [discriminate|].
    destruct fuel'; simpl; rewrite Hc; assumption.
  - destruct fuel' as [|fuel']; [lia|].
    simpl in *. destruct (startIndex <? length text); [|assumption].
    apply (IH _ _ _ Hrun). lia.
Qed.

(** The chunker returns at most one result. *)
Lemma splitReturns_unique (text : jsstring) (chunkSize : Z)
    (chunks chunks' : list jsstring) :
  splitReturns text chunkSize chunks -> splitReturns text chunkSize chunks' ->
  chunks = chunks'.
Proof.
  intros [f Hf] [f' Hf']. unfold splitTextIntoChunks in *.
  pose proof (splitLoop_more_fuel _ _ _ _ _ _ Hf (Nat.max f f')) as H.
  pose proof (splitLoop_more_fuel _ _ _ _ _ _ Hf' (Nat.max f f')) as H'.
  rewrite H in H' by lia. specialize (H' (Nat.le_max_r _ _)). congruence.
Qed.

(** [periodFree] on a slice decides [noPeriodIn]. *)
Lemma periodFree_slice (text : jsstring) (lo hi : Z) :
  0 <= lo -> lo <= hi ->
  periodFree (slice text lo hi) = true -> noPeriodIn text lo hi.
Proof.
  intros Hlo Hhi Hfree p Hp Hat.
  pose proof (charAt_lt_length _ _ _ Hat) as Hlen.
  rewrite slice_inside in Hfree by assumption.
  unfold periodFree in Hfree. rewrite forallb_forall in Hfree.
  assert (Hin : In 46%N
            (firstn (Z.to_nat (Z.min hi (length text))
                     - Z.to_nat (Z.min lo (length text)))
                    (skipn (Z.to_nat (Z.min lo (length text))) text))).
  { apply (nth_error_In _ (Z.to_nat (p - lo))).
    rewrite nth_error_firstn.
    destruct (Nat.ltb_spec (Z.to_nat (p - lo))
                (Z.to_nat (Z.min hi (length text))
                 - Z.to_nat (Z.min lo (length text)))) as [_|Hge]; [|lia].
    rewrite charAt_skipn. rewrite <- Hat. f_equal. lia. }
  apply Hfree in Hin. discriminate.
Qed.

(* ===================================================================== *)
(** ** Claims about the chunker *)
(* ===================================================================== *)

(** A set of cursors that the loop body never leaves and that lie inside
    the text: from any of them the loop never returns. *)
Lemma splitLoop_diverges (text : jsstring) (chunkSize : Z) (P : Z -> Prop) :
  (forall s, P s -> s < length text /\ P (nextEndIndex text chunkSize s)) ->
  forall fuel startIndex chunks,
    P startIndex -> splitLoop fuel text chunkSize startIndex chunks = None.
Proof.
  intros Hinv. induction fuel as [|fuel IH]; intros startIndex chunks HP;
    destruct (Hinv startIndex HP) as [Hin Hnext]; simpl;
    destruct (Z.ltb_spec startIndex (length text)); try lia; [reflexivity|].
  apply IH. exact Hnext.
Qed.

(** C1 as stated fails: for some texts and chunk sizes the call never
    returns.  On [".aa"] with chunk size 1 the first pass cuts ["."]; from
    then on the search finds the same full stop again, behind the cursor,
    the cut stays at index 1 and each pass appends an empty chunk.  On
    ["a"] with chunk size 0 the cut never leaves index 0. *)
Lemma small_chunk_size_never_returns :
  (splitDiverges stallingText 1 /\
   nextEndIndex stallingText 1 0 = 1 /\
   nextEndIndex stallingText 1 1 = 1 /\
   slice stallingText 1 1 = []) /\
  (splitDiverges (lit "a") 0 /\
   nextEndIndex (lit "a") 0 0 = 0 /\
   slice (lit "a") 0 0 = []).
Proof.
  split; (split; [|repeat split; reflexivity]); intros fuel.
  - apply (splitLoop_diverges stallingText 1 (fun s => s = 0 \/ s = 1));
      [|left; reflexivity].
    intros s [-> | ->]; split; try (right; reflexivity); reflexivity.
  - apply (splitLoop_diverges (lit "a") 0 (fun s => s = 0)); [|reflexivity].
    intros s ->. split; reflexivity.
Qed.

(** C1, amended: for every text and every chunk size of at least 100 the
    chunker returns, every segment is non-empty and the segments, taken in
    the order of the returned array (the index of a segment is its position
    in it), concatenate to the text. *)
Theorem chunk_coverage (text : jsstring) (chunkSize : Z) :
  100 <= chunkSize ->
  exists chunks,
    splitReturns text chunkSize chunks /\
    List.concat chunks = text /\
    Forall (fun chunk => chunk <> []) chunks.
Proof.
  intros Hcs.
  destruct (coverage_from_100 text chunkSize Hcs) as [chunks [Hrun Hrest]].
  exists chunks. split; [|exact Hrest].
  exists (S (List.length text)). exact Hrun.
Qed.

Lemma chunk_coverage_witness :
  exists chunks,
    splitReturns forwardStopText 100 chunks /\
    List.concat chunks = forwardStopText /\
    Forall (fun chunk => chunk <> []) chunks.
Proof. apply (chunk_coverage forwardStopText 100). lia. Defined.

(** The bound 100 cannot be lowered: under it, some text makes the call
    loop for ever. *)
Lemma chunk_size_below_100_can_diverge (chunkSize : Z) :
  chunkSize < 100 -> exists text, splitDiverges text chunkSize.
Proof.
  intros Hcs. destruct (Z.le_gt_cases chunkSize 0) as [Hle|Hpos].
  - exists (lit "a"). intros fuel.
    apply (splitLoop_diverges (lit "a") chunkSize (fun s => s <= 0)); [|lia].
    intros s Hs. split; [change (length (lit "a")) with 1; lia|].
    unfold nextEndIndex. change (length (lit "a")) with 1.
    destruct (Z.ltb_spec (s + chunkSize) 1); [|lia].
    change (indexOf (lit "a") period (s + chunkSize - 100)) with
      (indexOfFrom period
         (skipn (Z.to_nat (searchStart (lit "a") (s + chunkSize - 100)))
                (lit "a"))
         (searchStart (lit "a") (s + chunkSize - 100))).
    replace (searchStart (lit "a") (s + chunkSize - 100)) with 0
      by (unfold searchStart; change (length (lit "a")) with 1; lia).
    simpl. lia.
  - exists leadingStopText. intros fuel.
    assert (Hlen : length leadingStopText = 201) by reflexivity.
    assert (Hfind : forall position,
               position <= 0 -> indexOf leadingStopText period position = 0).
    { intros position Hp. unfold indexOf.
      replace (searchStart leadingStopText position) with 0
        by (unfold searchStart; rewrite Hlen; lia).
      reflexivity. }
    apply (splitLoop_diverges leadingStopText chunkSize
             (fun s => s = 0 \/ s = 1)); [|left; reflexivity].
    intros s Hs. split; [rewrite Hlen; lia|].
    right. unfold nextEndIndex. rewrite Hlen.
    destruct (Z.ltb_spec (s + chunkSize) 201); [|lia].
    rewrite Hfind by lia. simpl negb. cbn [andb].
    destruct (Z.ltb_spec (0 - (s + chunkSize)) 100); [reflexivity | lia].
Qed.

(** C10: with a chunk size of at least 101 every pass of the loop moves
    the cursor forward, the call returns, and every chunk it returns is
    non-empty. *)
Theorem chunker_advances_from_101 (text : jsstring) (chunkSize : Z) :
  101 <= chunkSize ->
  (forall startIndex,
      0 <= startIndex < length text ->
      startIndex < nextEndIndex text chunkSize startIndex) /\
  exists chunks,
    splitReturns text chunkSize chunks /\
    Forall (fun chunk => chunk <> []) chunks.
Proof.
  intros Hcs. split.
  - intros startIndex Hstart. apply nextEndIndex_advances; lia.
  - destruct (coverage_from_100 text chunkSize) as [chunks [Hrun [_ Hne]]]; [lia|].
    exists chunks. split; [|assumption].
    exists (S (List.length text)). exact Hrun.
Qed.

Lemma chunker_advances_from_101_witness :
  (forall startIndex,
      0 <= startIndex < length forwardStopText ->
      startIndex < nextEndIndex forwardStopText 101 startIndex) /\
  exists chunks,
    splitReturns forwardStopText 101 chunks /\
    Forall (fun chunk => chunk <> []) chunks.
Proof. apply (chunker_advances_from_101 forwardStopText 101). lia. Defined.

(** Why progress needs a lower bound on the chunk size: under 100 the
    search starts behind the cursor and can choose a cut at the cursor. *)
Lemma small_chunk_size_can_stall :
  exists text chunkSize startIndex,
    chunkSize < 100 /\ 0 <= startIndex < length text /\
    nextEndIndex text chunkSize startIndex <= startIndex.
Proof.
  exists stallingText, 1, 1. repeat split; vm_compute; congruence.
Qed.

(** A chunk size of exactly 100 advances too, since the search then starts
    at the cursor. *)
Lemma chunk_size_100_advances (text : jsstring) (startIndex : Z) :
  0 <= startIndex -> startIndex < nextEndIndex text 100 startIndex.
Proof. intros H. apply nextEndIndex_advances; lia. Qed.

(** C2 as stated fails: no full stop in the 100 code units before the
    naive boundary 100, yet the cut is at 121, just after the full stop at
    index 120, which lies past the naive boundary. *)
Lemma cut_past_naive_boundary :
  noPeriodIn forwardStopText (0 + 100 - 100) (0 + 100) /\
  charAt forwardStopText 120 = Some 46%N /\
  nextEndIndex forwardStopText 100 0 = 121 /\
  nextEndIndex forwardStopText 100 0 <> 0 + 100.
Proof.
  split; [|repeat split; vm_compute; congruence].
  apply periodFree_slice; [lia | lia | reflexivity].
Qed.

(** C2, amended: if no full stop lies from 100 code units before the naive
    boundary up to 100 code units after it, the cut is exactly the naive
    boundary; and a cut that is not the naive boundary lies just after a
    full stop found at most 100 code units before and less than 100 code
    units past the naive boundary. *)
Theorem cut_at_naive_boundary (text : jsstring) (chunkSize startIndex : Z) :
  let endIndex := startIndex + chunkSize in
  let cut := nextEndIndex text chunkSize startIndex in
  (noPeriodIn text (endIndex - 100) (endIndex + 100) -> cut = endIndex) /\
  (cut = endIndex \/
   (charAt text (cut - 1) = Some 46%N /\
    endIndex - 100 <= cut - 1 < endIndex + 100)).
Proof.
  cbv zeta.
  destruct (nextEndIndex_cases text chunkSize startIndex)
    as [Heq|[Heq [Hin [Hr [Hnear [Hat _]]]]]].
  - split; [intros _; assumption | left; assumption].
  - set (endIndex := startIndex + chunkSize) in *.
    set (nextPeriod := indexOf text period (endIndex - 100)) in *.
    assert (Hwin : endIndex - 100 <= nextPeriod < endIndex + 100).
    { unfold searchStart in Hr. lia. }
    split.
    + intros Hfree. exfalso. exact (Hfree nextPeriod Hwin Hat).
    + right. rewrite Heq. replace (nextPeriod + 1 - 1) with nextPeriod by lia.
      split; assumption.
Qed.

Lemma cut_at_naive_boundary_witness :
  noPeriodIn plainText (0 + 100 - 100) (0 + 100 + 100) /\
  nextEndIndex plainText 100 0 = 0 + 100.
Proof.
  assert (H : noPeriodIn plainText (0 + 100 - 100) (0 + 100 + 100)).
  { apply periodFree_slice; [lia | lia | reflexivity]. }
  split; [exact H|].
  exact (proj1 (cut_at_naive_boundary plainText 100 0) H).
Defined.

(* ===================================================================== *)
(** ** The retrying summariser and the reducer *)
(* ===================================================================== *)

Lemma requests_app (h1 h2 : History) :
  requests (h1 ++ h2) = requests h1 ++ requests h2.
Proof.
  induction h1 as [|ev h1 IH]; [reflexivity|].
  destruct ev; simpl; rewrite IH; reflexivity.
Qed.

Lemma waits_app (h1 h2 : History) : waits (h1 ++ h2) = waits h1 ++ waits h2.
Proof.
  induction h1 as [|ev h1 IH]; [reflexivity|].
  destruct ev; simpl; rewrite IH; reflexivity.
Qed.

Lemma artifacts_app (h1 h2 : History) :
  artifacts (h1 ++ h2) = artifacts h1 ++ artifacts h2.
Proof.
  induction h1 as [|ev h1 IH]; [reflexivity|].
  destruct ev as [| | |bucket key content [|]]; simpl; rewrite IH; reflexivity.
Qed.

(** One attempt of [generateSummaryForChunk], as the source reads. *)
Lemma generateSummaryForChunk_eq (env : Env) (text : jsstring)
    (chunkIndex totalChunks retryCount : Z) (h : History) :
  generateSummaryForChunk env text chunkIndex totalChunks retryCount h =
  let req := ChunkPrompt text (chunkIndex + 1) totalChunks in
  match bedrockSend env h req with
  | Normal summary => (Normal summary, h ++ [EvInvoke req])
  | Throw error =>
      if isThrottled error && (retryCount <? 3)
      then generateSummaryForChunk env text chunkIndex totalChunks
             (retryCount + 1)
             ((h ++ [EvInvoke req]) ++ [EvWait (5000 * (retryCount + 1))])
      else (Throw error, h ++ [EvInvoke req])
  end.
Proof.
  rewrite generateSummaryForChunk_equation_1.
  unfold invokeModel. cbv zeta.
  destruct (bedrockSend env h _) as [summary|error].
  - rewrite generateSummaryForChunk_clause_1_equation_1. reflexivity.
  - rewrite generateSummaryForChunk_clause_1_equation_2.
    destruct (Sumbool.sumbool_of_bool _) as [Hc|Hc].
    + rewrite generateSummaryForChunk_clause_1_clause_2_equation_1.
      rewrite Hc. reflexivity.
    + rewrite generateSummaryForChunk_clause_1_clause_2_equation_2.
      rewrite Hc. reflexivity.
Qed.

(** C4: against a model that is throttled on every attempt,
    [generateSummaryForChunk] fails after exactly four requests, with waits
    of 5000, 10000 and 15000 ms before the second, third and fourth, and
    the error it throws is the one of the fourth attempt. *)
Theorem retry_exhaustion (env : Env) (text : jsstring)
    (chunkIndex totalChunks : Z) (h : History) :
  (forall h' req, exists error,
      bedrockSend env h' req = Throw error /\ isThrottled error = true) ->
  let req := ChunkPrompt text (chunkIndex + 1) totalChunks in
  let attempts3 :=
    [EvInvoke req; EvWait 5000; EvInvoke req; EvWait 10000;
     EvInvoke req; EvWait 15000] in
  exists error,
    bedrockSend env (h ++ attempts3) req = Throw error /\
    isThrottled error = true /\
    generateSummaryForChunk env text chunkIndex totalChunks 0 h =
    (Throw error, h ++ attempts3 ++ [EvInvoke req]).
Proof.
  intros Halways req attempts3.
  destruct (Halways h req) as [e1 [H1 T1]].
  destruct (Halways ((h ++ [EvInvoke req]) ++ [EvWait 5000]) req)
    as [e2 [H2 T2]].
  destruct (Halways
              ((((h ++ [EvInvoke req]) ++ [EvWait 5000]) ++ [EvInvoke req])
                 ++ [EvWait 10000]) req) as [e3 [H3 T3]].
  destruct (Halways (h ++ attempts3) req) as [e4 [H4 T4]].
  exists e4. split; [assumption|]. split; [assumption|].
  rewrite generateSummaryForChunk_eq. fold req. cbv zeta.
  rewrite H1, T1. simpl.
  rewrite generateSummaryForChunk_eq. fold req. cbv zeta.
  rewrite H2, T2. simpl.
  rewrite generateSummaryForChunk_eq. fold req. cbv zeta.
  rewrite H3, T3. simpl.
  rewrite generateSummaryForChunk_eq. fold req. cbv zeta.
  unfold attempts3 in H4. rewrite <- !app_assoc. simpl.
  rewrite H4, T4. simpl. reflexivity.
Qed.

Lemma retry_exhaustion_witness :
  let env := stubEnv [] modelAlwaysThrottled storeAccepting in
  let req := ChunkPrompt (lit "Bir.") 1 1 in
  exists error,
    bedrockSend env
      ([] ++ [EvInvoke req; EvWait 5000; EvInvoke req; EvWait 10000;
              EvInvoke req; EvWait 15000]) req = Throw error /\
    isThrottled error = true /\
    generateSummaryForChunk env (lit "Bir.") 0 1 0 [] =
    (Throw error,
     [] ++ [EvInvoke req; EvWait 5000; EvInvoke req; EvWait 10000;
            EvInvoke req; EvWait 15000] ++ [EvInvoke req]).
Proof.
  apply (retry_exhaustion (stubEnv [] modelAlwaysThrottled storeAccepting)
           (lit "Bir.") 0 1 []).
  intros h' req. exists throttledError. split; reflexivity.
Defined.

(** C8: when the first attempt fails with an error that is not throttled,
    [generateSummaryForChunk] throws that very error after the one request:
    no retry and no wait. *)
Theorem fatal_short_circuit (env : Env) (text : jsstring)
    (chunkIndex totalChunks retryCount : Z) (h : History) (error : Error) :
  bedrockSend env h (ChunkPrompt text (chunkIndex + 1) totalChunks)
    = Throw error ->
  isThrottled error = false ->
  generateSummaryForChunk env text chunkIndex totalChunks retryCount h =
  (Throw error, h ++ [EvInvoke (ChunkPrompt text (chunkIndex + 1) totalChunks)]).
Proof.
  intros Hsend Hfatal. rewrite generateSummaryForChunk_eq. cbv zeta.
  rewrite Hsend, Hfatal. reflexivity.
Qed.

Lemma fatal_short_circuit_witness :
  generateSummaryForChunk (stubEnv [] (modelFailing fatalError) storeAccepting)
    (lit "Bir.") 0 1 0 [] =
  (Throw fatalError, [] ++ [EvInvoke (ChunkPrompt (lit "Bir.") (0 + 1) 1)]).
Proof.
  apply (fatal_short_circuit
           (stubEnv [] (modelFailing fatalError) storeAccepting)
           (lit "Bir.") 0 1 0 [] fatalError); reflexivity.
Defined.

(** C3 as stated fails: against a model that is throttled on the first
    request only, the per-segment summariser waits 5000 ms, asks again and
    succeeds, while [generateFinalSummary] throws the throttling error
    after its one request, without a wait. *)
Lemma reducer_does_not_retry :
  let env := stubEnv [] modelThrottledOnce storeAccepting in
  let reduceReq := FinalPrompt (join sectionSeparator [lit "s0"; lit "s1"]) in
  let chunkReq := ChunkPrompt (lit "Bir.") 1 1 in
  isThrottled throttledError = true /\
  generateSummaryForChunk env (lit "Bir.") 0 1 0 [] =
    (Normal (lit "ozet"), [EvInvoke chunkReq; EvWait 5000; EvInvoke chunkReq]) /\
  generateFinalSummary env [lit "s0"; lit "s1"] [] =
    (Throw throttledError, [EvInvoke reduceReq]).
Proof. repeat split; reflexivity. Qed.

(** C3, amended: [generateFinalSummary] sends one request and has no retry:
    whatever error that request fails with, throttled or not, it throws that
    error at once, with no wait and no second request. *)
Theorem reducer_single_attempt (env : Env) (summaries : list jsstring)
    (h : History) (error : Error) :
  let req := FinalPrompt (join sectionSeparator summaries) in
  bedrockSend env h req = Throw error ->
  generateFinalSummary env summaries h = (Throw error, h ++ [EvInvoke req]) /\
  waits (snd (generateFinalSummary env summaries h)) = waits h /\
  requests (snd (generateFinalSummary env summaries h)) = requests h ++ [req].
Proof.
  intros req Hsend. unfold generateFinalSummary, invokeModel. fold req.
  rewrite Hsend. simpl. split; [reflexivity|].
  rewrite waits_app, requests_app. simpl. rewrite app_nil_r.
  split; reflexivity.
Qed.

Lemma reducer_single_attempt_witness :
  let env := stubEnv [] modelAlwaysThrottled storeAccepting in
  let req := FinalPrompt (join sectionSeparator [lit "s0"; lit "s1"]) in
  generateFinalSummary env [lit "s0"; lit "s1"] [EvWait 3000] =
    (Throw throttledError, [EvWait 3000] ++ [EvInvoke req]) /\
  waits (snd (generateFinalSummary env [lit "s0"; lit "s1"] [EvWait 3000]))
    = waits [EvWait 3000] /\
  requests (snd (generateFinalSummary env [lit "s0"; lit "s1"] [EvWait 3000]))
    = requests [EvWait 3000] ++ [req].
Proof.
  apply (reducer_single_attempt
           (stubEnv [] modelAlwaysThrottled storeAccepting)
           [lit "s0"; lit "s1"] [EvWait 3000] throttledError).
  reflexivity.
Defined.

(* ===================================================================== *)
(** ** The sequential orchestrator *)
(* ===================================================================== *)

Section Orchestrator.

Variable env : Env.

(** The summariser of one segment only sends the prompt of that segment
    and waits. *)
Lemma generateSummaryForChunk_history (text : jsstring)
    (chunkIndex totalChunks : Z) :
  forall (n : nat) (retryCount : Z) (h : History),
    (retriesLeft retryCount <= n)%nat ->
    exists evs,
      snd (generateSummaryForChunk env text chunkIndex totalChunks retryCount h)
        = h ++ evs /\
      Forall (summariserEvent (ChunkPrompt text (chunkIndex + 1) totalChunks))
             evs.
Proof.
  set (req := ChunkPrompt text (chunkIndex + 1) totalChunks).
  assert (Hone : forall h, exists evs,
             h ++ [EvInvoke req] = h ++ evs /\ Forall (summariserEvent req) evs).
  { intros h. exists [EvInvoke req]. split; [reflexivity|].
    constructor; [left; reflexivity | constructor]. }
  induction n as [|n IH]; intros retryCount h Hn;
    rewrite generateSummaryForChunk_eq; fold req; cbv zeta;
    destruct (bedrockSend env h req) as [summary|error]; try apply Hone;
    destruct (isThrottled error); cbn [andb]; try apply Hone;
    destruct (Z.ltb_spec retryCount 3) as [Hlt|Hge]; try apply Hone.
  - unfold retriesLeft in Hn. lia.
  - destruct (IH (retryCount + 1)
                 ((h ++ [EvInvoke req]) ++ [EvWait (5000 * (retryCount + 1))]))
      as [evs [Hevs Hall]]; [unfold retriesLeft in *; lia|].
    exists ([EvInvoke req; EvWait (5000 * (retryCount + 1))] ++ evs).
    split.
    + rewrite Hevs. rewrite <- !app_assoc. reflexivity.
    + apply Forall_app. split; [|assumption].
      constructor; [left; reflexivity|].
      constructor; [right; eexists; reflexivity | constructor].
Qed.

Lemma orchestratorEvent_widen (lo hi lo' hi' : Z) (ev : Event) :
  lo' <= lo -> hi <= hi' ->
  orchestratorEvent lo hi ev -> orchestratorEvent lo' hi' ev.
Proof.
  intros Hlo Hhi [[text [position [total [-> Hp]]]]|[ms ->]].
  - left. exists text, position, total. split; [reflexivity | lia].
  - right. exists ms. reflexivity.
Qed.

(** The loop from index [i] only sends prompts for the segments it has
    been given, and waits. *)
Lemma processLoop_history (total : Z) :
  forall (rest : list jsstring) (i : Z) (summaries : list jsstring)
         (h : History),
    exists evs,
      snd (processLoop env rest i total summaries h) = h ++ evs /\
      Forall (orchestratorEvent i (i + length rest)) evs.
Proof.
  induction rest as [|chunk rest IH]; intros i summaries h.
  - exists []. split; [simpl; rewrite app_nil_r; reflexivity | constructor].
  - destruct (generateSummaryForChunk_history chunk i total
                (retriesLeft 0) 0 h (Nat.le_refl _)) as [evs1 [H1 Hall1]].
    assert (Hall1' : Forall (orchestratorEvent i (i + length (chunk :: rest)))
                            evs1).
    { eapply Forall_impl; [|exact Hall1].
      intros ev [->|[ms ->]].
      - left. exists chunk, (i + 1), total. split; [reflexivity|].
        pose proof (length_nonneg rest). unfold length in *. simpl. lia.
      - right. exists ms. reflexivity. }
    cbn [processLoop]. unfold bind.
    destruct (generateSummaryForChunk env chunk i total 0 h)
      as [[summary|error] h1]; simpl in H1; subst h1.
    + set (pace := if i <? total - 1 then wait 3000 else ret tt).
      assert (Hpace : exists evs2,
                 pace (h ++ evs1) = (Normal tt, (h ++ evs1) ++ evs2) /\
                 Forall (orchestratorEvent i (i + length (chunk :: rest)))
                        evs2).
      { unfold pace. destruct (i <? total - 1).
        - exists [EvWait 3000]. split; [reflexivity|].
          constructor; [right; eexists; reflexivity | constructor].
        - exists []. split; [unfold ret; rewrite app_nil_r; reflexivity|].
          constructor. }
      destruct Hpace as [evs2 [Hp Hall2]]. rewrite Hp.
      destruct (IH (i + 1) (summaries ++ [summary]) ((h ++ evs1) ++ evs2))
        as [evs3 [H3 Hall3]].
      exists (evs1 ++ evs2 ++ evs3). split.
      * rewrite H3. rewrite <- !app_assoc. reflexivity.
      * apply Forall_app. split; [assumption|].
        apply Forall_app. split; [assumption|].
        eapply Forall_impl; [|exact Hall3].
        intros ev. apply orchestratorEvent_widen; [lia|].
        unfold length. simpl List.length. lia.
    + exists evs1. split; [reflexivity | assumption].
Qed.

(** The loop over a list in two parts: the first part, then the second
    from where the first stopped, unless the first part threw. *)
Lemma processLoop_app (total : Z) (l2 : list jsstring) :
  forall (l1 : list jsstring) (i : Z) (summaries : list jsstring)
         (h : History),
    processLoop env (l1 ++ l2) i total summaries h =
    match processLoop env l1 i total summaries h with
    | (Normal summaries', h') =>
        processLoop env l2 (i + length l1) total summaries' h'
    | (Throw error, h') => (Throw error, h')
    end.
Proof.
  induction l1 as [|chunk l1 IH]; intros i summaries h.
  - simpl. unfold ret, length. simpl. rewrite Z.add_0_r. reflexivity.
  - rewrite <- app_comm_cons. cbn [processLoop]. unfold bind.
    destruct (generateSummaryForChunk env chunk i total 0 h)
      as [[summary|error] h1]; [|reflexivity].
    destruct ((if i <? total - 1 then wait 3000 else ret tt) h1)
      as [[u|error] h2]; [|reflexivity].
    rewrite IH. unfold length. simpl List.length.
    replace (i + 1 + Z.of_nat (List.length l1))
      with (i + Z.of_nat (S (List.length l1))) by lia.
    reflexivity.
Qed.

End Orchestrator.

Lemma nth_error_cut {A} (l : list A) :
  forall (i : nat) (x : A),
    nth_error l i = Some x -> l = firstn i l ++ x :: skipn (S i) l.
Proof.
  induction l as [|y l IH]; intros [|i] x Hnth; try discriminate.
  - injection Hnth as ->. reflexivity.
  - simpl. f_equal. apply IH. exact Hnth.
Qed.

(** C6: when the loop has reached segment [i] (segments [0..i-1] have been
    summarised) and the summariser of segment [i] throws, the orchestrator
    throws that error and stops there: the history of the run ends with the
    failed attempt, no list of summaries is returned, and no prompt was sent
    for a segment after [i]. *)
Theorem abort_propagation (env : Env) (chunks : list jsstring) (i : nat)
    (chunk : jsstring) (summaries : list jsstring) (h hi h1 : History)
    (error : Error) :
  nth_error chunks i = Some chunk ->
  processLoop env (firstn i chunks) 0 (length chunks) [] h
    = (Normal summaries, hi) ->
  generateSummaryForChunk env chunk (Z.of_nat i) (length chunks) 0 hi
    = (Throw error, h1) ->
  processChunksSequentially env chunks h = (Throw error, h1) /\
  exists evs,
    h1 = h ++ evs /\
    forall text position total,
      In (EvInvoke (ChunkPrompt text position total)) evs ->
      position <= Z.of_nat i + 1.
Proof.
  intros Hnth Hprefix Hfail.
  assert (Hlen : List.length (firstn i chunks) = i).
  { apply firstn_length_le. apply Nat.lt_le_incl.
    apply nth_error_Some. congruence. }
  assert (Hsplit : chunks = firstn i chunks ++ chunk :: skipn (S i) chunks).
  { apply nth_error_cut. exact Hnth. }
  split.
  - unfold processChunksSequentially. rewrite Hsplit at 1.
    rewrite processLoop_app, Hprefix.
    unfold length at 1. rewrite Hlen. cbn [processLoop]. unfold bind.
    simpl Z.add. rewrite Hfail. reflexivity.
  - destruct (processLoop_history env (length chunks) (firstn i chunks) 0 [] h)
      as [evs1 [H1 Hall1]].
    rewrite Hprefix in H1. simpl in H1.
    destruct (generateSummaryForChunk_history env chunk (Z.of_nat i)
                (length chunks) (retriesLeft 0) 0 hi (Nat.le_refl _))
      as [evs2 [H2 Hall2]].
    rewrite Hfail in H2. simpl in H2.
    exists (evs1 ++ evs2). split; [rewrite H2, H1, app_assoc; reflexivity|].
    intros text position total Hin. apply in_app_or in Hin.
    destruct Hin as [Hin|Hin].
    + rewrite Forall_forall in Hall1. apply Hall1 in Hin.
      destruct Hin as [[t [p [n [Heq Hp]]]]|[ms Heq]]; [|discriminate].
      injection Heq as _ -> _. unfold length in Hp. rewrite Hlen in Hp. lia.
    + rewrite Forall_forall in Hall2. apply Hall2 in Hin.
      destruct Hin as [Heq|[ms Heq]]; [|discriminate].
      injection Heq as _ -> _. lia.
Qed.

Lemma abort_propagation_witness :
  let env := stubEnv [] (modelThrottledAt 2) storeAccepting in
  let chunks := [lit "A."; lit "B."; lit "C."] in
  let reqA := ChunkPrompt (lit "A.") 1 3 in
  let reqB := ChunkPrompt (lit "B.") 2 3 in
  let h1 := [EvInvoke reqA; EvWait 3000;
             EvInvoke reqB; EvWait 5000; EvInvoke reqB; EvWait 10000;
             EvInvoke reqB; EvWait 15000; EvInvoke reqB] in
  processChunksSequentially env chunks [] = (Throw throttledError, h1) /\
  exists evs,
    h1 = [] ++ evs /\
    forall text position total,
      In (EvInvoke (ChunkPrompt text position total)) evs ->
      position <= Z.of_nat 1 + 1.
Proof.
  apply (abort_propagation
           (stubEnv [] (modelThrottledAt 2) storeAccepting)
           [lit "A."; lit "B."; lit "C."] 1 (lit "B.") [lit "summary-0"]
           [] [EvInvoke (ChunkPrompt (lit "A.") 1 3); EvWait 3000]);
    reflexivity.
Defined.

(* ===================================================================== *)
(** ** The handler *)
(* ===================================================================== *)

(** Brings the artifacts of a history built by appends into one list. *)
Ltac count_artifacts :=
  rewrite !artifacts_app; simpl; rewrite ?app_nil_r, <- ?app_assoc; simpl;
  congruence.

(** Reading the document stores nothing. *)
Lemma readDocument_artifacts (env : Env) (event : S3Event) (h : History) :
  artifacts (snd (readDocument env event h)) = artifacts h.
Proof.
  unfold readDocument, bind, liftC, getObject, ret.
  destruct (decodeURIComponent env _) as [key|e]; [|reflexivity].
  destruct (s3GetObject env h _ key) as [buf|e]; simpl.
  - destruct (pdfParse env buf); simpl;
      rewrite artifacts_app, app_nil_r; reflexivity.
  - rewrite artifacts_app, app_nil_r. reflexivity.
Qed.

(** The orchestrator stores nothing. *)
Lemma processChunksSequentially_artifacts (env : Env)
    (chunks : list jsstring) (h : History) :
  artifacts (snd (processChunksSequentially env chunks h)) = artifacts h.
Proof.
  unfold processChunksSequentially.
  destruct (processLoop_history env (length chunks) chunks 0 [] h)
    as [evs [-> Hall]].
  rewrite artifacts_app.
  assert (Hnone : artifacts evs = []).
  { induction Hall as [|ev evs Hev _ IH]; [reflexivity|].
    destruct Hev as [[t [p [n [-> _]]]]|[ms ->]]; exact IH. }
  rewrite Hnone, app_nil_r. reflexivity.
Qed.

(** Lines 161-195 step by step: the run after the chunker. *)
Lemma summariseAndStore_eq (env : Env) (bucket key : jsstring)
    (chunks : list jsstring) (h : History) :
  summariseAndStore env bucket key chunks h =
  match processChunksSequentially env chunks h with
  | (Throw error, h1) => (Throw error, h1)
  | (Normal chunkSummaries, h1) =>
      let h2 := h1 ++ [EvWait 3000] in
      let req := FinalPrompt (join sectionSeparator chunkSummaries) in
      let h3 := h2 ++ [EvInvoke req] in
      match bedrockSend env h2 req with
      | Throw error => (Throw error, h3)
      | Normal finalSummary =>
          let detailedSummary := join detailedDelimiter chunkSummaries in
          let h4 := h3 ++ [EvPutObject bucket (summaryKeyOf key)
                             finalSummary true] in
          match s3PutObject env h3 bucket (summaryKeyOf key) finalSummary with
          | Throw error =>
              (Throw error,
               h3 ++ [EvPutObject bucket (summaryKeyOf key) finalSummary false])
          | Normal _ =>
              match s3PutObject env h4 bucket (detailedSummaryKeyOf key)
                      detailedSummary with
              | Throw error =>
                  (Throw error,
                   h4 ++ [EvPutObject bucket (detailedSummaryKeyOf key)
                            detailedSummary false])
              | Normal _ =>
                  (Normal
                     {| statusCode := 200;
                        body := SuccessBody
                          (lit "PDF successfully processed and summaries created")
                          (summaryKeyOf key) (detailedSummaryKeyOf key) |},
                   h4 ++ [EvPutObject bucket (detailedSummaryKeyOf key)
                            detailedSummary true])
              end
          end
      end
  end.
Proof.
  unfold summariseAndStore, bind.
  destruct (processChunksSequentially env chunks h)
    as [[chunkSummaries|error] h1]; [|reflexivity].
  unfold wait, generateFinalSummary, invokeModel, putObject, ret. cbv zeta.
  destruct (bedrockSend env _ _) as [finalSummary|error]; [|reflexivity].
  destruct (s3PutObject env _ bucket (summaryKeyOf key) finalSummary)
    as [u|error]; [|reflexivity].
  destruct (s3PutObject env _ bucket (detailedSummaryKeyOf key) _)
    as [u'|error]; reflexivity.
Qed.

(** The handler, once the document has been read. *)
Lemma handler_after_read (env : Env) (event : S3Event) (h h1 : History)
    (key fullText : jsstring) :
  readDocument env event h = (Normal (key, fullText), h1) ->
  exists chunks,
    splitTextIntoChunks (chunkerFuel fullText) fullText defaultChunkSize
      = Some chunks /\
    handler env event h =
    Some (catchAll (summariseAndStore env (bucketName event) key chunks) h1).
Proof.
  intros Hread. destruct (defaultChunk_total fullText) as [chunks Hsplit].
  exists chunks. split; [exact Hsplit|].
  unfold handler. rewrite Hread, Hsplit. reflexivity.
Qed.

(** C9 as stated fails.  First run: the store accepts the final summary
    and refuses the detailed one; the handler answers 500 and exactly one
    of the two artifacts has been written.  Second and third run: the
    document cannot be fetched in one, the model refuses segment 0 in the
    other, with the same error; the two failure responses are equal, so
    the response does not tell the failing stage. *)
Lemma failed_run_leaves_one_artifact :
  (exists h',
      handler (stubEnv (lit "Bir.") modelNumbered storeRefusingSecond)
              sampleEvent [] = Some (failureResponse storageError, h') /\
      artifacts h' = [(lit "summaries/book.txt", lit "final")]) /\
  (exists h1 h2,
      handler (unreadableEnv fatalError) sampleEvent []
        = Some (failureResponse fatalError, h1) /\
      handler (stubEnv (lit "Bir.") (modelFailing fatalError) storeAccepting)
              sampleEvent [] = Some (failureResponse fatalError, h2) /\
      requests h1 = [] /\
      requests h2 = [ChunkPrompt (lit "Bir.") 1 1]).
Proof.
  split.
  - eexists. split; reflexivity.
  - do 2 eexists. repeat split; reflexivity.
Qed.

(** C9, amended: the handler always returns.  A run that fails, at
    whatever stage, answers status 500 with the fixed label and the message
    of the error that was thrown, and nothing about the stage or the
    segment.  A failed run has written no artifact, or, when it is the
    write of the detailed summary that failed, the final summary alone.  A
    run that succeeds answers 200 and has written both, the final summary
    first. *)
Theorem handler_outcomes (env : Env) (event : S3Event) (h : History) :
  match readDocument env event h with
  | (Throw error, h1) =>
      handler env event h = Some (failureResponse error, h1) /\
      artifacts h1 = artifacts h
  | (Normal (key, fullText), h1) =>
      exists chunks,
        splitReturns fullText defaultChunkSize chunks /\
        match summariseAndStore env (bucketName event) key chunks h1 with
        | (Throw error, h2) =>
            handler env event h = Some (failureResponse error, h2) /\
            (artifacts h2 = artifacts h \/
             exists finalSummary detailedSummary hd,
               h2 = hd ++ [EvPutObject (bucketName event)
                             (detailedSummaryKeyOf key) detailedSummary false] /\
               artifacts h2 = artifacts h ++ [(summaryKeyOf key, finalSummary)])
        | (Normal response, h2) =>
            handler env event h = Some (response, h2) /\
            statusCode response = 200 /\
            exists finalSummary detailedSummary,
              artifacts h2 =
              artifacts h ++ [(summaryKeyOf key, finalSummary);
                              (detailedSummaryKeyOf key, detailedSummary)]
        end
  end.
Proof.
  pose proof (readDocument_artifacts env event h) as Hread.
  destruct (readDocument env event h) as [[[key fullText]|error] h1] eqn:Hdoc;
    simpl in Hread.
  - destruct (handler_after_read _ _ _ _ _ _ Hdoc) as [chunks [Hsplit Hrun]].
    exists chunks. split; [eexists; exact Hsplit|].
    rewrite Hrun. unfold catchAll.
    pose proof (processChunksSequentially_artifacts env chunks h1) as Hproc.
    rewrite summariseAndStore_eq.
    destruct (processChunksSequentially env chunks h1)
      as [[chunkSummaries|error] ha]; simpl in Hproc; cbv zeta.
    + destruct (bedrockSend env _ _) as [finalSummary|error].
      * destruct (s3PutObject env _ _ (summaryKeyOf key) _) as [u|error].
        -- destruct (s3PutObject env _ _ (detailedSummaryKeyOf key) _)
             as [u'|error].
           ++ split; [reflexivity|]. split; [reflexivity|].
              exists finalSummary, (join detailedDelimiter chunkSummaries).
              count_artifacts.
           ++ split; [reflexivity|]. right.
              exists finalSummary, (join detailedDelimiter chunkSummaries).
              eexists. split; [reflexivity | count_artifacts].
        -- split; [reflexivity|]. left. count_artifacts.
      * split; [reflexivity|]. left. count_artifacts.
    + split; [reflexivity|]. left. congruence.
  - split; [|assumption]. unfold handler. rewrite Hdoc. reflexivity.
Qed.

(** C5 as stated fails: on a document whose text is empty the handler
    reports no failure.  It sends the reduce prompt with no segment
    summary in it, stores the answer as the final summary and an empty
    detailed summary, and answers 200. *)
Lemma empty_document_is_summarised :
  pdfParse (stubEnv [] modelNumbered storeAccepting) [] = Normal [] /\
  handler (stubEnv [] modelNumbered storeAccepting) sampleEvent [] =
  Some ({| statusCode := 200;
           body := SuccessBody
                     (lit "PDF successfully processed and summaries created")
                     (lit "summaries/book.txt")
                     (lit "summaries/detailed_book.txt") |},
        [EvGetObject (lit "books") (lit "pdfs/book.pdf");
         EvWait 3000;
         EvInvoke (FinalPrompt []);
         EvPutObject (lit "books") (lit "summaries/book.txt") (lit "final") true;
         EvPutObject (lit "books") (lit "summaries/detailed_book.txt") [] true]).
Proof. split; reflexivity. Qed.

(** C5, amended: when the extracted text is empty the chunker returns zero
    segments, not one empty segment, and no segment prompt is sent; the
    handler has no empty-document condition: after the 3000 ms wait it
    sends the reduce prompt with no summary in it and, when the model
    answers and both writes succeed, it stores that answer and an empty
    detailed summary and answers 200. *)
Theorem empty_document_run (env : Env) (event : S3Event) (h : History)
    (key : jsstring) (pdfBuffer : list N) (finalSummary : jsstring) :
  let bucket := bucketName event in
  let h1 := h ++ [EvGetObject bucket key] in
  let h2 := h1 ++ [EvWait 3000] in
  let h3 := h2 ++ [EvInvoke (FinalPrompt [])] in
  let h4 := h3 ++ [EvPutObject bucket (summaryKeyOf key) finalSummary true] in
  let h5 := h4 ++ [EvPutObject bucket (detailedSummaryKeyOf key) [] true] in
  decodeURIComponent env (replaceAllChar 43%N 32%N (objectKey event))
    = Normal key ->
  s3GetObject env h bucket key = Normal pdfBuffer ->
  pdfParse env pdfBuffer = Normal [] ->
  bedrockSend env h2 (FinalPrompt []) = Normal finalSummary ->
  s3PutObject env h3 bucket (summaryKeyOf key) finalSummary = Normal tt ->
  s3PutObject env h4 bucket (detailedSummaryKeyOf key) [] = Normal tt ->
  splitReturns [] defaultChunkSize [] /\
  handler env event h =
  Some ({| statusCode := 200;
           body := SuccessBody
                     (lit "PDF successfully processed and summaries created")
                     (summaryKeyOf key) (detailedSummaryKeyOf key) |}, h5) /\
  requests h5 = requests h ++ [FinalPrompt []].
Proof.
  intros bucket h1 h2 h3 h4 h5 Hkey Hget Hparse Hsend Hput1 Hput2.
  subst bucket h1 h2 h3 h4 h5.
  split; [exists 0%nat; reflexivity|].
  split.
  - unfold handler, readDocument, bind, liftC, getObject, ret.
    rewrite Hkey, Hget, Hparse.
    change (splitTextIntoChunks (chunkerFuel []) [] defaultChunkSize)
      with (Some (@nil jsstring)).
    unfold catchAll. rewrite summariseAndStore_eq.
    change (processChunksSequentially env []
              (h ++ [EvGetObject (bucketName event) key]))
      with (@Normal (list jsstring) [],
            h ++ [EvGetObject (bucketName event) key]).
    cbv beta iota zeta. change (join sectionSeparator []) with (@nil N).
    change (join detailedDelimiter []) with (@nil N).
    rewrite Hsend, Hput1, Hput2. reflexivity.
  - rewrite !requests_app. simpl. rewrite !app_nil_r. reflexivity.
Qed.

Lemma empty_document_run_witness :
  splitReturns [] defaultChunkSize [] /\
  handler (stubEnv [] modelNumbered storeAccepting) sampleEvent [EvWait 1] =
  Some ({| statusCode := 200;
           body := SuccessBody
                     (lit "PDF successfully processed and summaries created")
                     (summaryKeyOf (lit "pdfs/book.pdf"))
                     (detailedSummaryKeyOf (lit "pdfs/book.pdf")) |},
        ((((([EvWait 1]
               ++ [EvGetObject (bucketName sampleEvent) (lit "pdfs/book.pdf")])
              ++ [EvWait 3000])
             ++ [EvInvoke (FinalPrompt [])])
            ++ [EvPutObject (bucketName sampleEvent)
                  (summaryKeyOf (lit "pdfs/book.pdf")) (lit "final") true])
           ++ [EvPutObject (bucketName sampleEvent)
                 (detailedSummaryKeyOf (lit "pdfs/book.pdf")) [] true])) /\
  requests
    ((((([EvWait 1]
           ++ [EvGetObject (bucketName sampleEvent) (lit "pdfs/book.pdf")])
          ++ [EvWait 3000])
         ++ [EvInvoke (FinalPrompt [])])
        ++ [EvPutObject (bucketName sampleEvent)
              (summaryKeyOf (lit "pdfs/book.pdf")) (lit "final") true])
       ++ [EvPutObject (bucketName sampleEvent)
             (detailedSummaryKeyOf (lit "pdfs/book.pdf")) [] true])
  = requests [EvWait 1] ++ [FinalPrompt []].
Proof.
  apply (empty_document_run (stubEnv [] modelNumbered storeAccepting)
           sampleEvent [EvWait 1] (lit "pdfs/book.pdf") [] (lit "final"));
    reflexivity.
Defined.

(* ===================================================================== *)
(** ** The end-to-end example *)
(* ===================================================================== *)

Lemma splitLoop_step (fuel : nat) (text : jsstring)
    (chunkSize startIndex : Z) (chunks : list jsstring) :
  startIndex < length text ->
  splitLoop (S fuel) text chunkSize startIndex chunks =
  splitLoop fuel text chunkSize (nextEndIndex text chunkSize startIndex)
    (chunks ++ [slice text startIndex (nextEndIndex text chunkSize startIndex)]).
Proof.
  intros Hin. simpl. destruct (Z.ltb_spec startIndex (length text)); [|lia].
  reflexivity.
Qed.

Lemma splitLoop_done (fuel : nat) (text : jsstring)
    (chunkSize startIndex : Z) (chunks : list jsstring) :
  length text <= startIndex ->
  splitLoop fuel text chunkSize startIndex chunks = Some chunks.
Proof.
  intros Hout.
  destruct fuel; simpl; destruct (Z.ltb_spec startIndex (length text));
    try lia; reflexivity.
Qed.

Lemma generateSummaryForChunk_ok (env : Env) (text : jsstring)
    (chunkIndex totalChunks retryCount : Z) (h : History)
    (summary : jsstring) :
  bedrockSend env h (ChunkPrompt text (chunkIndex + 1) totalChunks)
    = Normal summary ->
  generateSummaryForChunk env text chunkIndex totalChunks retryCount h =
  (Normal summary,
   h ++ [EvInvoke (ChunkPrompt text (chunkIndex + 1) totalChunks)]).
Proof.
  intros Hsend. rewrite generateSummaryForChunk_eq. cbv zeta.
  rewrite Hsend. reflexivity.
Qed.

(** The chunker on a text of 80,150 code units whose first full stop from
    index 79,900 on is at index 80,070. *)
Lemma split_80150 (text : jsstring) :
  length text = 80150 ->
  charAt text 80070 = Some 46%N ->
  noPeriodIn text 79900 80070 ->
  splitLoop 2 text defaultChunkSize 0 [] =
  Some [slice text 0 80071; slice text 80071 80150].
Proof.
  intros Hlen Hstop Hfree.
  assert (Hidx : indexOf text period 79900 = 80070).
  { apply indexOf_first; unfold searchStart; try rewrite Hlen;
      [lia | assumption | intros p Hp; apply Hfree; lia]. }
  assert (Hcut0 : nextEndIndex text defaultChunkSize 0 = 80071).
  { unfold nextEndIndex, defaultChunkSize. rewrite Hlen.
    change (0 + 80000 - 100) with 79900. rewrite Hidx. reflexivity. }
  assert (Hcut1 : nextEndIndex text defaultChunkSize 80071 = 160071).
  { unfold nextEndIndex, defaultChunkSize. rewrite Hlen. reflexivity. }
  rewrite splitLoop_step by lia. rewrite Hcut0.
  rewrite splitLoop_step by lia. rewrite Hcut1.
  rewrite splitLoop_done by lia.
  rewrite (slice_to_end text 80071 160071) by lia. rewrite Hlen.
  reflexivity.
Qed.

(** C7: a document of exactly 80,150 code units whose first full stop from
    index 79,900 on is at index 80,070 is split, at the default chunk size,
    into the two segments [0, 80071) and [80071, 80150); with a model that
    answers ["summary-N"] for segment [N] the detailed summary that is
    stored is the two answers, in order, joined by the fixed delimiter, and
    the final summary that is stored is the answer to the reduce prompt. *)
Theorem end_to_end_80150 (env : Env) (event : S3Event) (h : History)
    (text key : jsstring) (pdfBuffer : list N) (finalSummary : jsstring) :
  length text = 80150 ->
  charAt text 80070 = Some 46%N ->
  noPeriodIn text 79900 80070 ->
  decodeURIComponent env (replaceAllChar 43%N 32%N (objectKey event))
    = Normal key ->
  s3GetObject env h (bucketName event) key = Normal pdfBuffer ->
  pdfParse env pdfBuffer = Normal text ->
  (forall h' chunk position total,
      bedrockSend env h' (ChunkPrompt chunk position total) =
      Normal (lit "summary-" ++ ofNat (Z.to_nat (position - 1)))) ->
  (forall h' sections,
      bedrockSend env h' (FinalPrompt sections) = Normal finalSummary) ->
  (forall h' bucket k content,
      s3PutObject env h' bucket k content = Normal tt) ->
  splitReturns text defaultChunkSize
    [slice text 0 80071; slice text 80071 80150] /\
  exists h',
    handler env event h =
    Some ({| statusCode := 200;
             body := SuccessBody
                       (lit "PDF successfully processed and summaries created")
                       (summaryKeyOf key) (detailedSummaryKeyOf key) |}, h') /\
    artifacts h' =
    artifacts h ++
      [(summaryKeyOf key, finalSummary);
       (detailedSummaryKeyOf key,
        lit "summary-0" ++ detailedDelimiter ++ lit "summary-1")] /\
    requests h' =
    requests h ++
      [ChunkPrompt (slice text 0 80071) 1 2;
       ChunkPrompt (slice text 80071 80150) 2 2;
       FinalPrompt (lit "summary-0" ++ sectionSeparator ++ lit "summary-1")].
Proof.
  intros Hlen Hstop Hfree Hkey Hget Hparse Hmodel Hfinal Hstore.
  pose proof (split_80150 text Hlen Hstop Hfree) as Hsplit.
  split; [exists 2%nat; exact Hsplit|].
  assert (Hfuel : splitTextIntoChunks (chunkerFuel text) text defaultChunkSize
                  = Some [slice text 0 80071; slice text 80071 80150]).
  { apply (splitLoop_more_fuel _ _ _ _ _ _ Hsplit).
    unfold chunkerFuel. unfold length in Hlen. lia. }
  set (c0 := slice text 0 80071) in *.
  set (c1 := slice text 80071 80150) in *.
  assert (Hproc : forall h1,
             processChunksSequentially env [c0; c1] h1 =
             (Normal [lit "summary-0"; lit "summary-1"],
              h1 ++ [EvInvoke (ChunkPrompt c0 1 2); EvWait 3000;
                     EvInvoke (ChunkPrompt c1 2 2)])).
  { intros h1. unfold processChunksSequentially.
    change (length [c0; c1]) with 2. cbn [processLoop]. unfold bind.
    rewrite (generateSummaryForChunk_ok env c0 0 2 0 h1 (lit "summary-0"))
      by apply Hmodel.
    change (0 <? 2 - 1) with true. cbv beta iota. unfold wait at 1.
    rewrite (generateSummaryForChunk_ok env c1 (0 + 1) 2 0 _ (lit "summary-1"))
      by apply Hmodel.
    change (0 + 1 <? 2 - 1) with false. cbv beta iota. unfold ret.
    rewrite <- !app_assoc. reflexivity. }
  eexists. split; [|split].
  - unfold handler, readDocument, bind, liftC, getObject, ret.
    rewrite Hkey, Hget, Hparse, Hfuel.
    unfold catchAll. rewrite summariseAndStore_eq, Hproc.
    cbv beta iota zeta. rewrite Hfinal, !Hstore. reflexivity.
  - rewrite !artifacts_app. simpl. rewrite !app_nil_r, <- !app_assoc.
    reflexivity.
  - rewrite !requests_app. simpl. rewrite !app_nil_r, <- !app_assoc.
    reflexivity.
Qed.

Lemma end_to_end_80150_witness :
  let env := stubEnv document80150 modelNumbered storeAccepting in
  let key := lit "pdfs/book.pdf" in
  splitReturns document80150 defaultChunkSize
    [slice document80150 0 80071; slice document80150 80071 80150] /\
  exists h',
    handler env sampleEvent [] =
    Some ({| statusCode := 200;
             body := SuccessBody
                       (lit "PDF successfully processed and summaries created")
                       (summaryKeyOf key) (detailedSummaryKeyOf key) |}, h') /\
    artifacts h' =
    artifacts [] ++
      [(summaryKeyOf key, lit "final");
       (detailedSummaryKeyOf key,
        lit "summary-0" ++ detailedDelimiter ++ lit "summary-1")] /\
    requests h' =
    requests [] ++
      [ChunkPrompt (slice document80150 0 80071) 1 2;
       ChunkPrompt (slice document80150 80071 80150) 2 2;
       FinalPrompt (lit "summary-0" ++ sectionSeparator ++ lit "summary-1")].
Proof.
  apply (end_to_end_80150
           (stubEnv document80150 modelNumbered storeAccepting)
           sampleEvent [] document80150 (lit "pdfs/book.pdf") [] (lit "final")).
  - vm_compute. reflexivity.
  - vm_compute. reflexivity.
  - apply periodFree_slice; [lia | lia | vm_compute; reflexivity].
  - reflexivity.
  - reflexivity.
  - reflexivity.
  - intros h' chunk position total. reflexivity.
  - intros h' sections. reflexivity.
  - intros h' bucket k content. reflexivity.
Defined.

(* ===================================================================== *)
(** ** More on the chunker: the shape and the number of the chunks *)
(* ===================================================================== *)

(** What the loop returns is cut as [chunksFrom] says. *)
Lemma splitLoop_chunksFrom (text : jsstring) (chunkSize : Z) :
  forall fuel startIndex out,
    splitLoop fuel text chunkSize startIndex [] = Some out ->
    chunksFrom text chunkSize startIndex out.
Proof.
  induction fuel as [|fuel IH]; intros startIndex out Hrun; simpl in Hrun;
    destruct (Z.ltb_spec startIndex (length text)) as [Hin|Hout];
    try discriminate;
    try (injection Hrun as <-; simpl; assumption).
  rewrite splitLoop_acc in Hrun.
  destruct (splitLoop fuel text chunkSize _ []) as [rest|] eqn:Hrest;
    [|discriminate].
  injection Hrun as <-. simpl. repeat split; [assumption|].
  apply IH. exact Hrest.
Qed.

Lemma slice_length (s : jsstring) (a b : Z) :
  0 <= a -> a <= b -> b <= length s -> length (slice s a b) = b - a.
Proof.
  intros Ha Hab Hb. rewrite slice_inside by lia. unfold length in *.
  rewrite length_firstn, length_skipn. lia.
Qed.

Lemma slice_charAt (s : jsstring) (a b k : Z) :
  0 <= a -> a <= b -> b <= length s -> 0 <= k < b - a ->
  charAt (slice s a b) k = charAt s (a + k).
Proof.
  intros Ha Hab Hb Hk. rewrite slice_inside by lia.
  replace (Z.min b (length s)) with b by lia.
  replace (Z.min a (length s)) with a by lia.
  unfold charAt at 1. destruct (Z.ltb_spec k 0); [lia|].
  rewrite nth_error_firstn.
  destruct (Nat.ltb_spec (Z.to_nat k) (Z.to_nat b - Z.to_nat a)); [|lia].
  rewrite charAt_skipn. f_equal. lia.
Qed.

(** One pass of the loop at a chunk size of 100 or more.  Either the naive
    boundary is at or past the end of the text and the chunk is the rest of
    the text, or the cut is inside the text, from 99 under to 100 over the
    chunk size away from the cursor, and the chunk has exactly the chunk
    size or ends with a full stop. *)
Lemma chunk_shape (text : jsstring) (chunkSize startIndex : Z) :
  100 <= chunkSize -> 0 <= startIndex < length text ->
  let cut := nextEndIndex text chunkSize startIndex in
  let chunk := slice text startIndex cut in
  (length text <= cut /\ 0 < length chunk <= chunkSize + 100) \/
  (cut < length text /\
   length chunk = cut - startIndex /\
   chunkSize - 99 <= length chunk <= chunkSize + 100 /\
   (length chunk = chunkSize \/ endsWithPeriod chunk)).
Proof.
  intros Hcs Hstart. cbv zeta.
  pose proof (length_nonneg text) as Hlen.
  destruct (nextEndIndex_cases text chunkSize startIndex)
    as [Heq|[Heq [Hin [Hr [Hnear [Hat _]]]]]]; rewrite Heq.
  - destruct (Z.le_gt_cases (length text) (startIndex + chunkSize)).
    + left. split; [assumption|].
      rewrite slice_to_end by lia. rewrite slice_length by lia. lia.
    + right. split; [lia|]. rewrite slice_length by lia.
      repeat split; lia.
  - set (nextPeriod := indexOf text period (startIndex + chunkSize - 100)) in *.
    unfold searchStart in Hr.
    destruct (Z.le_gt_cases (length text) (nextPeriod + 1)).
    + left. split; [assumption|]. rewrite slice_length by lia. lia.
    + right. split; [lia|]. rewrite slice_length by lia.
      repeat split; try lia. right. unfold endsWithPeriod.
      rewrite slice_length by lia. rewrite slice_charAt by lia.
      rewrite <- Hat. f_equal. lia.
Qed.

(** The shape of the chunks, all along the loop. *)
Lemma chunksFrom_shape (text : jsstring) (chunkSize : Z) :
  100 <= chunkSize ->
  forall out startIndex,
    0 <= startIndex ->
    chunksFrom text chunkSize startIndex out ->
    Forall (fun chunk => 0 < length chunk <= chunkSize + 100) out /\
    Forall (fun chunk =>
              chunkSize - 99 <= length chunk /\
              (length chunk = chunkSize \/ endsWithPeriod chunk))
           (removelast out) /\
    (Z.of_nat (List.length out) - 1) * (chunkSize - 99)
      < Z.max 1 (length text - startIndex).
Proof.
  intros Hcs. induction out as [|chunk rest IH]; intros startIndex Hstart Hout.
  - split; [constructor | split; [constructor|]].
    change (Z.of_nat (List.length (@nil jsstring))) with 0. lia.
  - destruct Hout as [Hin [Hchunk Hrest]].
    pose proof (nextEndIndex_advances text chunkSize startIndex Hcs Hstart)
      as Hadv.
    destruct (IH _ (Z.lt_le_incl _ _ (Z.le_lt_trans _ _ _ Hstart Hadv)) Hrest)
      as [Hall [Hinner Hcount]].
    pose proof (chunk_shape text chunkSize startIndex Hcs (conj Hstart Hin))
      as Hshape. cbv zeta in Hshape. rewrite <- Hchunk in Hshape.
    destruct Hshape as [[Hend Hlen]|[Hcut [Hlen [Hbounds Hkind]]]].
    + destruct rest as [|chunk' rest'].
      * split; [constructor; [lia | constructor] | split; [constructor|]].
        change (Z.of_nat (List.length [chunk])) with 1. lia.
      * destruct Hrest as [Hrest _]. lia.
    + split; [constructor; [lia | assumption]|].
      destruct rest as [|chunk' rest'].
      * split; [constructor|].
        change (Z.of_nat (List.length [chunk])) with 1. lia.
      * split; [constructor; [split; [lia | assumption] | assumption]|].
        change (List.length (chunk :: chunk' :: rest'))
          with (S (List.length (chunk' :: rest'))).
        rewrite Nat2Z.inj_succ. nia.
Qed.

(** What the chunker returns, cut by cut. *)
Lemma splitReturns_chunksFrom (text : jsstring) (chunkSize : Z)
    (chunks : list jsstring) :
  splitReturns text chunkSize chunks -> chunksFrom text chunkSize 0 chunks.
Proof. intros [fuel Hrun]. exact (splitLoop_chunksFrom _ _ _ _ _ Hrun). Qed.

(** One pass is enough for a text that is no longer than the chunk size. *)
Lemma splitLoop_short_text (text : jsstring) (chunkSize : Z) :
  0 < length text <= chunkSize ->
  splitLoop 1 text chunkSize 0 [] = Some [text].
Proof.
  intros [Hpos Hle].
  assert (Hcut : nextEndIndex text chunkSize 0 = chunkSize).
  { unfold nextEndIndex. simpl Z.add.
    destruct (Z.ltb_spec chunkSize (length text)); [lia | reflexivity]. }
  rewrite splitLoop_step by lia. rewrite Hcut.
  rewrite splitLoop_done by lia.
  rewrite slice_to_end by lia. rewrite slice_inside by lia.
  replace (Z.min 0 (length text)) with 0 by lia.
  rewrite Z.min_id. unfold length. rewrite Nat2Z.id. simpl.
  rewrite Nat.sub_0_r, firstn_all. reflexivity.
Qed.

(** X1: a non-empty text that is no longer than the chunk size comes back
    as one chunk, the text itself, whatever full stops it holds and also
    at a chunk size under 100. *)
Theorem short_text_is_one_chunk (text : jsstring) (chunkSize : Z) :
  0 < length text <= chunkSize ->
  splitReturns text chunkSize [text].
Proof.
  intros Hlen. exists 1%nat. apply splitLoop_short_text. exact Hlen.
Qed.

Lemma short_text_is_one_chunk_witness :
  splitReturns stallingText 3 [stallingText].
Proof.
  apply (short_text_is_one_chunk stallingText 3). vm_compute.
  split; [reflexivity | discriminate].
Defined.

(** X2: when the naive boundary is inside the text, the cut goes just
    after the first full stop found from 100 code units before the naive
    boundary on, provided it is less than 100 code units past the boundary:
    the earliest full stop of the window wins, whether or not a later one
    is nearer to the boundary. *)
Theorem first_full_stop_wins (text : jsstring) (chunkSize startIndex p : Z) :
  let endIndex := startIndex + chunkSize in
  endIndex < length text ->
  endIndex - 100 <= p -> 0 <= p < endIndex + 100 ->
  charAt text p = Some 46%N ->
  noPeriodIn text (endIndex - 100) p ->
  nextEndIndex text chunkSize startIndex = p + 1.
Proof.
  intros endIndex Hin Hlo Hhi Hat Hfree.
  pose proof (charAt_lt_length _ _ _ Hat) as Hp.
  assert (Hidx : indexOf text period (endIndex - 100) = p).
  { apply indexOf_first; unfold searchStart;
      [lia | assumption | intros q Hq; apply Hfree; lia]. }
  unfold nextEndIndex. fold endIndex. cbv zeta. rewrite Hidx.
  destruct (Z.ltb_spec endIndex (length text)); [|lia].
  destruct (Z.eqb_spec p (-1)); [lia|].
  destruct (Z.ltb_spec (p - endIndex) 100); [reflexivity | lia].
Qed.

(** Full stops at 30 and 60, the rest letters: 200 code units. *)
Lemma first_full_stop_wins_witness :
  nextEndIndex (filler 30 ++ period ++ filler 29 ++ period ++ filler 139)
               100 0 = 30 + 1.
Proof.
  apply (first_full_stop_wins
           (filler 30 ++ period ++ filler 29 ++ period ++ filler 139)
           100 0 30).
  - vm_compute. reflexivity.
  - lia.
  - lia.
  - reflexivity.
  - apply (periodFree_slice _ 0 30); [lia | lia | reflexivity].
Defined.

(** X3: at a chunk size of 100 or more no chunk is empty and no chunk is
    longer than the chunk size plus 100; every chunk but the last has at
    least the chunk size minus 99 code units. *)
Theorem chunk_length_bounds (text : jsstring) (chunkSize : Z)
    (chunks : list jsstring) :
  100 <= chunkSize ->
  splitReturns text chunkSize chunks ->
  Forall (fun chunk => 0 < length chunk <= chunkSize + 100) chunks /\
  Forall (fun chunk => chunkSize - 99 <= length chunk) (removelast chunks).
Proof.
  intros Hcs Hret.
  destruct (chunksFrom_shape text chunkSize Hcs chunks 0 (Z.le_refl 0)
              (splitReturns_chunksFrom _ _ _ Hret)) as [Hall [Hinner _]].
  split; [assumption|].
  eapply Forall_impl; [|exact Hinner]. intros chunk [Hlow _]. exact Hlow.
Qed.

Lemma chunk_length_bounds_witness :
  let chunks := [slice forwardStopText 0 121; slice forwardStopText 121 221;
                 slice forwardStopText 221 321] in
  Forall (fun chunk => 0 < length chunk <= 100 + 100) chunks /\
  Forall (fun chunk => 100 - 99 <= length chunk) (removelast chunks).
Proof.
  apply (chunk_length_bounds forwardStopText 100); [lia|].
  exists 3%nat. reflexivity.
Defined.

(** X4: at a chunk size of 100 or more every chunk but the last either has
    exactly the chunk size or ends with a full stop. *)
Theorem inner_chunks_end_on_full_stop (text : jsstring) (chunkSize : Z)
    (chunks : list jsstring) :
  100 <= chunkSize ->
  splitReturns text chunkSize chunks ->
  Forall (fun chunk => length chunk = chunkSize \/ endsWithPeriod chunk)
         (removelast chunks).
Proof.
  intros Hcs Hret.
  destruct (chunksFrom_shape text chunkSize Hcs chunks 0 (Z.le_refl 0)
              (splitReturns_chunksFrom _ _ _ Hret)) as [_ [Hinner _]].
  eapply Forall_impl; [|exact Hinner]. intros chunk [_ Hkind]. exact Hkind.
Qed.

Lemma inner_chunks_end_on_full_stop_witness :
  Forall (fun chunk => length chunk = 100 \/ endsWithPeriod chunk)
         (removelast [slice forwardStopText 0 121;
                      slice forwardStopText 121 221;
                      slice forwardStopText 221 321]).
Proof.
  apply (inner_chunks_end_on_full_stop forwardStopText 100); [lia|].
  exists 3%nat. reflexivity.
Defined.

(** X5: at a chunk size of 100 or more a non-empty text of [len] code
    units gives [n] chunks with [(n - 1) * (chunkSize - 99) < len]: at the
    default size, at most one chunk more than [len / 79901]. *)
Theorem chunk_count_bound (text : jsstring) (chunkSize : Z)
    (chunks : list jsstring) :
  100 <= chunkSize ->
  0 < length text ->
  splitReturns text chunkSize chunks ->
  (Z.of_nat (List.length chunks) - 1) * (chunkSize - 99) < length text.
Proof.
  intros Hcs Hpos Hret.
  destruct (chunksFrom_shape text chunkSize Hcs chunks 0 (Z.le_refl 0)
              (splitReturns_chunksFrom _ _ _ Hret)) as [_ [_ Hcount]].
  lia.
Qed.

Lemma chunk_count_bound_witness :
  (Z.of_nat (List.length [slice forwardStopText 0 121;
                          slice forwardStopText 121 221;
                          slice forwardStopText 221 321]) - 1) * (100 - 99)
  < length forwardStopText.
Proof.
  apply (chunk_count_bound forwardStopText 100); [lia | reflexivity|].
  exists 3%nat. reflexivity.
Defined.

(* ===================================================================== *)
(** ** More on the retrying summariser *)
(* ===================================================================== *)

Section Summariser.

Variable env : Env.
Variables (text : jsstring) (chunkIndex totalChunks : Z).

Let req : Request := ChunkPrompt text (chunkIndex + 1) totalChunks.

(** [k] throttled attempts in a row, within the limit of three retries,
    leave the summariser where it would be had it been called with the
    retry count [k] higher, after [k] rounds of request and wait. *)
Lemma generateSummaryForChunk_backoff :
  forall (k : nat) (retryCount : Z) (h : History),
    retryCount + Z.of_nat k <= 3 ->
    (forall j, (j < k)%nat ->
       exists error,
         bedrockSend env (h ++ backoff req retryCount j) req = Throw error /\
         isThrottled error = true) ->
    generateSummaryForChunk env text chunkIndex totalChunks retryCount h =
    generateSummaryForChunk env text chunkIndex totalChunks
      (retryCount + Z.of_nat k) (h ++ backoff req retryCount k).
Proof.
  induction k as [|k IH]; intros retryCount h Hle Hthr.
  - simpl. rewrite Z.add_0_r, app_nil_r. reflexivity.
  - destruct (Hthr 0%nat) as [error [Hsend Hcls]]; [lia|].
    simpl in Hsend. rewrite app_nil_r in Hsend.
    rewrite generateSummaryForChunk_eq. fold req. cbv zeta.
    rewrite Hsend, Hcls.
    destruct (Z.ltb_spec retryCount 3); [|lia]. cbn [andb].
    rewrite IH.
    + replace (retryCount + 1 + Z.of_nat k)
        with (retryCount + Z.of_nat (S k)) by lia.
      cbn [backoff]. rewrite <- !app_assoc. reflexivity.
    + lia.
    + intros j Hj. destruct (Hthr (S j)) as [e [He Hc]]; [lia|].
      exists e. split; [|exact Hc]. rewrite <- He.
      cbn [backoff]. rewrite <- !app_assoc. reflexivity.
Qed.

(** Whatever the model does, the events of one call are some rounds of
    request and backoff wait, no more than the retries left, and one last
    request. *)
Lemma generateSummaryForChunk_rounds :
  forall (n : nat) (retryCount : Z) (h : History),
    (retriesLeft retryCount <= n)%nat ->
    exists k : nat,
      (k <= retriesLeft retryCount)%nat /\
      snd (generateSummaryForChunk env text chunkIndex totalChunks
             retryCount h)
      = h ++ backoff req retryCount k ++ [EvInvoke req].
Proof.
  assert (Hone : forall retryCount h, exists k : nat,
             (k <= retriesLeft retryCount)%nat /\
             h ++ [EvInvoke req]
             = h ++ backoff req retryCount k ++ [EvInvoke req]).
  { intros retryCount h. exists 0%nat. split; [lia | reflexivity]. }
  induction n as [|n IH]; intros retryCount h Hn;
    rewrite generateSummaryForChunk_eq; fold req; cbv zeta;
    destruct (bedrockSend env h req) as [summary|error]; try apply Hone;
    destruct (isThrottled error); cbn [andb]; try apply Hone;
    destruct (Z.ltb_spec retryCount 3) as [Hlt|Hge]; try apply Hone.
  - unfold retriesLeft in Hn. lia.
  - destruct (IH (retryCount + 1)
                 ((h ++ [EvInvoke req]) ++ [EvWait (5000 * (retryCount + 1))]))
      as [k [Hk Hevs]]; [unfold retriesLeft in *; lia|].
    exists (S k). split; [unfold retriesLeft in *; lia|].
    rewrite Hevs. cbn [backoff]. rewrite <- !app_assoc. reflexivity.
Qed.

End Summariser.

(** X6: if the first [k] attempts are throttled, [k] within the three
    retries allowed, and the next attempt answers, or fails with an error
    that is not throttled, or is the fourth, then the call ends as that
    attempt ends, after [k] rounds of request and wait, the [j]-th wait
    lasting [5000 * (retryCount + j)] ms. *)
Theorem retry_until_settled (env : Env) (text : jsstring)
    (chunkIndex totalChunks retryCount : Z) (k : nat) (h : History)
    (outcome : Completion jsstring) :
  let req := ChunkPrompt text (chunkIndex + 1) totalChunks in
  retryCount + Z.of_nat k <= 3 ->
  (forall j, (j < k)%nat ->
     exists error,
       bedrockSend env (h ++ backoff req retryCount j) req = Throw error /\
       isThrottled error = true) ->
  bedrockSend env (h ++ backoff req retryCount k) req = outcome ->
  match outcome with
  | Normal _ => True
  | Throw error => isThrottled error = false \/ 3 <= retryCount + Z.of_nat k
  end ->
  generateSummaryForChunk env text chunkIndex totalChunks retryCount h =
  (outcome, h ++ backoff req retryCount k ++ [EvInvoke req]).
Proof.
  intros req Hle Hthr Hsend Hlast.
  rewrite (generateSummaryForChunk_backoff env text chunkIndex totalChunks
             k retryCount h Hle Hthr).
  fold req. rewrite generateSummaryForChunk_eq. fold req. cbv zeta.
  rewrite Hsend, app_assoc.
  destruct outcome as [summary|error]; [reflexivity|].
  destruct Hlast as [Hfatal|Hmax].
  - rewrite Hfatal. reflexivity.
  - destruct (Z.ltb_spec (retryCount + Z.of_nat k) 3); [lia|].
    rewrite andb_false_r. reflexivity.
Qed.

Lemma retry_until_settled_witness :
  let env := stubEnv [] modelThrottledOnce storeAccepting in
  let req := ChunkPrompt (lit "Bir.") (0 + 1) 1 in
  generateSummaryForChunk env (lit "Bir.") 0 1 0 [] =
  (Normal (lit "ozet"), [] ++ backoff req 0 1 ++ [EvInvoke req]).
Proof.
  apply (retry_until_settled (stubEnv [] modelThrottledOnce storeAccepting)
           (lit "Bir.") 0 1 0 1 [] (Normal (lit "ozet"))).
  - simpl. lia.
  - intros j Hj. assert (j = 0%nat) as -> by lia.
    exists throttledError. split; reflexivity.
  - reflexivity.
  - exact I.
Defined.

(** X7: whatever the model answers, one call of the summariser sends
    between one and four requests when it starts from retry count 0 (none
    beyond the first when it starts from 3 or more), each but the last
    followed by its backoff wait, and does nothing else. *)
Theorem summariser_never_exceeds_retries (env : Env) (text : jsstring)
    (chunkIndex totalChunks retryCount : Z) (h : History) :
  let req := ChunkPrompt text (chunkIndex + 1) totalChunks in
  exists k : nat,
    Z.of_nat k <= Z.max 0 (3 - retryCount) /\
    snd (generateSummaryForChunk env text chunkIndex totalChunks retryCount h)
    = h ++ backoff req retryCount k ++ [EvInvoke req].
Proof.
  intros req.
  destruct (generateSummaryForChunk_rounds env text chunkIndex totalChunks
              (retriesLeft retryCount) retryCount h (Nat.le_refl _))
    as [k [Hk Hevs]].
  exists k. split; [unfold retriesLeft in Hk; lia | exact Hevs].
Qed.

(** [startsWith] is being a prefix. *)
Lemma startsWith_iff (pat s : jsstring) :
  startsWith pat s = true <-> exists post, s = pat ++ post.
Proof.
  revert s. induction pat as [|p pat IH]; intros s; simpl.
  - split; [intros _; exists s; reflexivity | reflexivity].
  - destruct s as [|c s']; [split; [discriminate | intros [post H]; discriminate]|].
    rewrite andb_true_iff, IH, N.eqb_eq. split.
    + intros [-> [post ->]]. exists post. reflexivity.
    + intros [post H]. injection H as -> ->. split; [reflexivity|].
      exists post. reflexivity.
Qed.

(** The search fails exactly when the pattern occurs nowhere. *)
Lemma indexOfFrom_found_iff (pat s : jsstring) :
  forall i, 0 <= i ->
    indexOfFrom pat s i <> -1 <-> exists pre post, s = pre ++ pat ++ post.
Proof.
  induction s as [|c s' IH]; intros i Hi; simpl.
  - destruct (startsWith pat []) eqn:Hsw.
    + apply startsWith_iff in Hsw. destruct Hsw as [post Hpost].
      split; [intros _; exists [], post; exact Hpost | lia].
    + split; [congruence|]. intros [pre [post H]].
      destruct pre; [|discriminate]. simpl in H.
      assert (Hsw' : startsWith pat [] = true)
        by (apply startsWith_iff; exists post; exact H).
      congruence.
  - destruct (startsWith pat (c :: s')) eqn:Hsw.
    + apply startsWith_iff in Hsw. destruct Hsw as [post Hpost].
      split; [intros _; exists [], post; exact Hpost | lia].
    + rewrite IH by lia. split.
      * intros [pre [post ->]]. exists (c :: pre), post. reflexivity.
      * intros [pre [post H]]. destruct pre as [|c' pre].
        -- simpl in H.
           assert (Hsw' : startsWith pat (c :: s') = true)
             by (apply startsWith_iff; exists post; exact H).
           congruence.
        -- injection H as _ ->. exists pre, post. reflexivity.
Qed.

Lemma includes_iff (s pat : jsstring) :
  includes s pat = true <-> exists pre post, s = pre ++ pat ++ post.
Proof.
  unfold includes, indexOf.
  assert (Hstart : searchStart s 0 = 0).
  { unfold searchStart. pose proof (length_nonneg s). lia. }
  rewrite Hstart. simpl skipn.
  rewrite <- (indexOfFrom_found_iff pat s 0 (Z.le_refl 0)).
  rewrite negb_true_iff, Z.eqb_neq. reflexivity.
Qed.

(** X8: an error is taken for a rate limit, and retried, exactly when
    its message contains the text ['Too many requests'] somewhere, in this
    very spelling. *)
Theorem throttled_is_a_substring_test (error : Error) :
  isThrottled error = true <->
  exists pre post, message error = pre ++ lit "Too many requests" ++ post.
Proof. unfold isThrottled, tooManyRequests. apply includes_iff. Qed.

(* ===================================================================== *)
(** ** More on the orchestrator *)
(* ===================================================================== *)

Section OrchestratorRuns.

Variable env : Env.


(** A run that succeeds returns one more summary per segment. *)
Lemma processLoop_length (total : Z) :
  forall (rest : list jsstring) (i : Z) (summaries out : list jsstring)
         (h h' : History),
    processLoop env rest i total summaries h = (Normal out, h') ->
    List.length out = (List.length summaries + List.length rest)%nat.
Proof.
  induction rest as [|chunk rest IH]; intros i summaries out h h' Hrun.
  - simpl in Hrun. injection Hrun as <- _. simpl. lia.
  - cbn [processLoop] in Hrun. unfold bind in Hrun.
    destruct (generateSummaryForChunk env chunk i total 0 h)
      as [[summary|error] h1]; [|discriminate].
    destruct ((if i <? total - 1 then wait 3000 else ret tt) h1)
      as [[u|error] h2]; [|discriminate].
    apply IH in Hrun. rewrite length_app in Hrun. simpl in *. lia.
Qed.

(** Whatever the model does, the loop sends at most four requests per
    segment. *)
Lemma processLoop_request_bound (total : Z) :
  forall (rest : list jsstring) (i : Z) (summaries : list jsstring)
         (h : History),
    exists evs,
      snd (processLoop env rest i total summaries h) = h ++ evs /\
      (List.length (requests evs) <= 4 * List.length rest)%nat.
Proof.
  induction rest as [|chunk rest IH]; intros i summaries h.
  - exists []. split; [simpl; rewrite app_nil_r; reflexivity | simpl; lia].
  - destruct (generateSummaryForChunk_rounds env chunk i total
                (retriesLeft 0) 0 h (Nat.le_refl _)) as [k [Hk H1]].
    set (evs1 := backoff (ChunkPrompt chunk (i + 1) total) 0 k
                   ++ [EvInvoke (ChunkPrompt chunk (i + 1) total)]) in *.
    assert (Hcount : (List.length (requests evs1) <= 4)%nat).
    { unfold evs1. rewrite requests_app, length_app. simpl.
      assert (Hb : forall r rc n,
                 List.length (requests (backoff r rc n)) = n).
      { intros r rc n. revert rc.
        induction n as [|n IHn]; intros rc; simpl; [|rewrite IHn];
          reflexivity. }
      rewrite Hb. change (retriesLeft 0) with 3%nat in Hk. lia. }
    cbn [processLoop]. unfold bind.
    destruct (generateSummaryForChunk env chunk i total 0 h)
      as [[summary|error] h1]; simpl in H1; subst h1.
    + assert (Hpace : exists evs2,
                 (if i <? total - 1 then wait 3000 else ret tt) (h ++ evs1)
                 = (Normal tt, (h ++ evs1) ++ evs2) /\ requests evs2 = []).
      { destruct (i <? total - 1).
        - exists [EvWait 3000]. split; reflexivity.
        - exists []. unfold ret. rewrite app_nil_r. split; reflexivity. }
      destruct Hpace as [evs2 [Hp Hnone]]. rewrite Hp.
      destruct (IH (i + 1) (summaries ++ [summary]) ((h ++ evs1) ++ evs2))
        as [evs3 [H3 Hcount3]].
      exists (evs1 ++ evs2 ++ evs3). split.
      * rewrite H3. rewrite <- !app_assoc. reflexivity.
      * rewrite !requests_app, !length_app, Hnone. simpl List.length. lia.
    + exists evs1. split; [reflexivity|]. simpl List.length. lia.
Qed.

End OrchestratorRuns.



(** X10: whatever the model does, when the orchestrator returns, it
    returns exactly one summary per segment. *)
Theorem one_summary_per_segment (env : Env) (chunks summaries : list jsstring)
    (h h' : History) :
  processChunksSequentially env chunks h = (Normal summaries, h') ->
  List.length summaries = List.length chunks.
Proof.
  intros Hrun. unfold processChunksSequentially in Hrun.
  apply processLoop_length in Hrun. exact Hrun.
Qed.

Lemma one_summary_per_segment_witness :
  List.length [lit "ozet"; lit "ozet"] = List.length [lit "A."; lit "B."].
Proof.
  apply (one_summary_per_segment
           (stubEnv [] modelThrottledOnce storeAccepting)
           [lit "A."; lit "B."] [lit "ozet"; lit "ozet"] []
           [EvInvoke (ChunkPrompt (lit "A.") 1 2); EvWait 5000;
            EvInvoke (ChunkPrompt (lit "A.") 1 2); EvWait 3000;
            EvInvoke (ChunkPrompt (lit "B.") 2 2)]).
  reflexivity.
Defined.

(** X11: whatever the model does, the orchestrator sends at most four
    requests per segment, and it stores nothing. *)
Theorem orchestrator_request_bound (env : Env) (chunks : list jsstring)
    (h : History) :
  exists evs,
    snd (processChunksSequentially env chunks h) = h ++ evs /\
    (List.length (requests evs) <= 4 * List.length chunks)%nat /\
    artifacts evs = [].
Proof.
  unfold processChunksSequentially.
  destruct (processLoop_request_bound env (length chunks) chunks 0 [] h)
    as [evs [Hevs Hcount]].
  exists evs. split; [exact Hevs|]. split; [exact Hcount|].
  pose proof (processChunksSequentially_artifacts env chunks h) as Hart.
  unfold processChunksSequentially in Hart.
  rewrite Hevs, artifacts_app in Hart.
  apply (f_equal (@List.length _)) in Hart. rewrite length_app in Hart.
  destruct (artifacts evs); [reflexivity | simpl in Hart; lia].
Qed.

(* ===================================================================== *)
(** ** More on the handler: reading, naming, the one-segment document *)
(* ===================================================================== *)

(** X12: when the key cannot be decoded, or the object cannot be fetched,
    or the PDF cannot be parsed, the handler answers 500 with the message
    of that error; it has sent nothing to the model, waited for nothing and
    stored nothing, and with a key that cannot be decoded it has not
    touched the store at all. *)
Theorem unreadable_document_costs_nothing (env : Env) (event : S3Event)
    (h : History) (error : Error) :
  let bucket := bucketName event in
  let rawKey := replaceAllChar 43%N 32%N (objectKey event) in
  (decodeURIComponent env rawKey = Throw error \/
   exists key,
     decodeURIComponent env rawKey = Normal key /\
     (s3GetObject env h bucket key = Throw error \/
      exists pdfBuffer,
        s3GetObject env h bucket key = Normal pdfBuffer /\
        pdfParse env pdfBuffer = Throw error)) ->
  exists h1,
    handler env event h = Some (failureResponse error, h1) /\
    requests h1 = requests h /\ waits h1 = waits h /\
    artifacts h1 = artifacts h /\
    (decodeURIComponent env rawKey = Throw error -> h1 = h).
Proof.
  intros bucket rawKey Hfail.
  unfold handler, readDocument, bind, liftC, getObject, ret.
  fold bucket. fold rawKey.
  destruct Hfail as [Hdec|[key [Hdec [Hget|[pdfBuffer [Hget Hparse]]]]]];
    rewrite Hdec; try rewrite Hget; try rewrite Hparse.
  - exists h. repeat split; reflexivity.
  - exists (h ++ [EvGetObject bucket key]).
    rewrite requests_app, waits_app, artifacts_app. simpl.
    rewrite !app_nil_r. repeat split; try reflexivity. discriminate.
  - exists (h ++ [EvGetObject bucket key]).
    rewrite requests_app, waits_app, artifacts_app. simpl.
    rewrite !app_nil_r. repeat split; try reflexivity. discriminate.
Qed.

Lemma unreadable_document_costs_nothing_witness :
  exists h1,
    handler (undecodableEnv uriError) sampleEvent [EvWait 1]
      = Some (failureResponse uriError, h1) /\
    requests h1 = requests [EvWait 1] /\ waits h1 = waits [EvWait 1] /\
    artifacts h1 = artifacts [EvWait 1] /\
    (decodeURIComponent (undecodableEnv uriError)
       (replaceAllChar 43%N 32%N (objectKey sampleEvent)) = Throw uriError ->
     h1 = [EvWait 1]).
Proof.
  apply (unreadable_document_costs_nothing (undecodableEnv uriError)
           sampleEvent [EvWait 1] uriError).
  left. reflexivity.
Defined.

Lemma replace_eq (pat rep s : jsstring) :
  replace pat rep s =
  if startsWith pat s then rep ++ skipn (List.length pat) s
  else match s with
       | [] => []
       | c :: s' => c :: replace pat rep s'
       end.
Proof. destruct s; reflexivity. Qed.

(** A pattern that does not occur is not replaced. *)
Lemma replace_absent (pat rep s : jsstring) :
  includes s pat = false -> replace pat rep s = s.
Proof.
  intros Hinc.
  assert (Hnone : forall pre post, s <> pre ++ pat ++ post).
  { intros pre post Heq.
    assert (Hyes : includes s pat = true)
      by (apply includes_iff; exists pre, post; exact Heq).
    congruence. }
  clear Hinc. induction s as [|c s' IH]; rewrite replace_eq.
  - destruct (startsWith pat []) eqn:Hsw; [|reflexivity].
    apply startsWith_iff in Hsw. destruct Hsw as [post Hpost].
    exfalso. exact (Hnone [] post Hpost).
  - destruct (startsWith pat (c :: s')) eqn:Hsw.
    + apply startsWith_iff in Hsw. destruct Hsw as [post Hpost].
      exfalso. exact (Hnone [] post Hpost).
    + f_equal. apply IH. intros pre post Heq.
      apply (Hnone (c :: pre) post). rewrite Heq. reflexivity.
Qed.

(** A pattern at the very start is replaced there. *)
Lemma replace_at_start (pat rep s : jsstring) :
  replace pat rep (pat ++ s) = rep ++ s.
Proof.
  rewrite replace_eq.
  assert (Hsw : startsWith pat (pat ++ s) = true)
    by (apply startsWith_iff; exists s; reflexivity).
  rewrite Hsw. f_equal.
  rewrite skipn_app, skipn_all, Nat.sub_diag. reflexivity.
Qed.

(** The search for a pattern skips a prefix that lacks its first unit. *)
Lemma replace_after_prefix (p0 : N) (pat rep pre s : jsstring) :
  Forall (fun c => c <> p0) pre ->
  replace (p0 :: pat) rep (pre ++ s) = pre ++ replace (p0 :: pat) rep s.
Proof.
  induction 1 as [|c pre Hc _ IH]; [reflexivity|].
  rewrite <- app_comm_cons, replace_eq. cbn [startsWith].
  destruct (N.eqb_spec p0 c) as [Heq|_]; [congruence|].
  cbn [andb]. rewrite IH. reflexivity.
Qed.

(** X13: for an object [pdfs/<name>.pdf] whose name holds no full stop,
    the final summary goes to [summaries/<name>.txt] and the detailed
    summary to [summaries/detailed_<name>.txt]. *)
Theorem artifact_keys_of_a_pdf_key (name : jsstring) :
  Forall (fun c => c <> 46%N) name ->
  summaryKeyOf (lit "pdfs/" ++ name ++ lit ".pdf")
    = lit "summaries/" ++ name ++ lit ".txt" /\
  detailedSummaryKeyOf (lit "pdfs/" ++ name ++ lit ".pdf")
    = lit "summaries/detailed_" ++ name ++ lit ".txt".
Proof.
  intros Hname.
  assert (Hext : forall dir : jsstring,
             Forall (fun c => c <> 46%N) dir ->
             replace (lit ".pdf") (lit ".txt") (dir ++ name ++ lit ".pdf")
             = dir ++ name ++ lit ".txt").
  { intros dir Hdir. rewrite app_assoc.
    change (lit ".pdf") with (46%N :: lit "pdf") at 1.
    rewrite replace_after_prefix by (apply Forall_app; split; assumption).
    change (46%N :: lit "pdf") with (lit ".pdf").
    rewrite <- (app_nil_r (lit ".pdf")) at 2.
    rewrite replace_at_start, app_nil_r, <- app_assoc. reflexivity. }
  unfold summaryKeyOf, detailedSummaryKeyOf. rewrite !replace_at_start.
  split; apply Hext; apply Forall_forall; intros c Hin Heq; subst c;
    vm_compute in Hin; intuition discriminate.
Qed.

Lemma artifact_keys_of_a_pdf_key_witness :
  summaryKeyOf (lit "pdfs/" ++ lit "2024/book" ++ lit ".pdf")
    = lit "summaries/" ++ lit "2024/book" ++ lit ".txt" /\
  detailedSummaryKeyOf (lit "pdfs/" ++ lit "2024/book" ++ lit ".pdf")
    = lit "summaries/detailed_" ++ lit "2024/book" ++ lit ".txt".
Proof.
  apply (artifact_keys_of_a_pdf_key (lit "2024/book")).
  apply Forall_forall. intros c Hin Heq. subst c.
  vm_compute in Hin. intuition discriminate.
Defined.

(** X14: for a key that holds neither [pdfs/] nor [.pdf], both artifact
    keys are the key of the object that was read: the two summaries are
    written over the source object, one after the other. *)
Theorem artifact_keys_of_a_foreign_key (key : jsstring) :
  includes key (lit "pdfs/") = false ->
  includes key (lit ".pdf") = false ->
  summaryKeyOf key = key /\ detailedSummaryKeyOf key = key.
Proof.
  intros Hdir Hext. unfold summaryKeyOf, detailedSummaryKeyOf.
  rewrite !(replace_absent (lit "pdfs/")) by exact Hdir.
  rewrite replace_absent by exact Hext. split; reflexivity.
Qed.

Lemma artifact_keys_of_a_foreign_key_witness :
  summaryKeyOf (lit "inbox/book.PDF") = lit "inbox/book.PDF" /\
  detailedSummaryKeyOf (lit "inbox/book.PDF") = lit "inbox/book.PDF".
Proof.
  apply (artifact_keys_of_a_foreign_key (lit "inbox/book.PDF")); reflexivity.
Defined.

(** X15: for a non-empty document of at most 80,000 code units, with a
    model and a store that answer, the handler sends the whole text as
    segment 1 of 1, waits 3000 ms once, sends that one summary, with no
    separator, as the reduce prompt, stores the answer as the final summary
    and the one summary, with no delimiter, as the detailed summary, and
    answers 200. *)
Theorem one_segment_document (env : Env) (event : S3Event) (h : History)
    (text key : jsstring) (pdfBuffer : list N)
    (summary finalSummary : jsstring) :
  let bucket := bucketName event in
  let h1 := h ++ [EvGetObject bucket key] in
  let h2 := h1 ++ [EvInvoke (ChunkPrompt text 1 1); EvWait 3000] in
  0 < length text <= defaultChunkSize ->
  decodeURIComponent env (replaceAllChar 43%N 32%N (objectKey event))
    = Normal key ->
  s3GetObject env h bucket key = Normal pdfBuffer ->
  pdfParse env pdfBuffer = Normal text ->
  bedrockSend env h1 (ChunkPrompt text 1 1) = Normal summary ->
  bedrockSend env h2 (FinalPrompt summary) = Normal finalSummary ->
  (forall h' b k content, s3PutObject env h' b k content = Normal tt) ->
  handler env event h =
  Some ({| statusCode := 200;
           body := SuccessBody
                     (lit "PDF successfully processed and summaries created")
                     (summaryKeyOf key) (detailedSummaryKeyOf key) |},
        h2 ++ [EvInvoke (FinalPrompt summary);
               EvPutObject bucket (summaryKeyOf key) finalSummary true;
               EvPutObject bucket (detailedSummaryKeyOf key) summary true]).
Proof.
  intros bucket h1 h2 Hlen Hkey Hget Hparse Hsum Hfinal Hstore.
  subst bucket h1 h2.
  assert (Hsplit : splitTextIntoChunks (chunkerFuel text) text defaultChunkSize
                   = Some [text]).
  { apply (splitLoop_more_fuel _ _ 1%nat _ _ _
             (splitLoop_short_text text defaultChunkSize Hlen)).
    unfold chunkerFuel. lia. }
  unfold handler, readDocument, bind, liftC, getObject, ret.
  rewrite Hkey, Hget, Hparse, Hsplit.
  unfold catchAll. rewrite summariseAndStore_eq.
  unfold processChunksSequentially. change (length [text]) with 1.
  cbn [processLoop]. unfold bind.
  rewrite (generateSummaryForChunk_ok env text 0 1 0 _ summary) by exact Hsum.
  change (0 <? 1 - 1) with false. cbv beta iota zeta. unfold ret.
  cbv beta iota. change (0 + 1) with 1.
  rewrite <- !app_assoc in *. simpl app in *.
  change (join sectionSeparator [summary]) with summary.
  change (join detailedDelimiter [summary]) with summary.
  rewrite Hfinal, !Hstore. rewrite <- !app_assoc. reflexivity.
Qed.

Lemma one_segment_document_witness :
  handler (stubEnv (lit "Bir.") modelNumbered storeAccepting) sampleEvent [] =
  Some ({| statusCode := 200;
           body := SuccessBody
                     (lit "PDF successfully processed and summaries created")
                     (summaryKeyOf (lit "pdfs/book.pdf"))
                     (detailedSummaryKeyOf (lit "pdfs/book.pdf")) |},
        (([] ++ [EvGetObject (bucketName sampleEvent) (lit "pdfs/book.pdf")])
           ++ [EvInvoke (ChunkPrompt (lit "Bir.") 1 1); EvWait 3000])
          ++ [EvInvoke (FinalPrompt (lit "summary-0"));
              EvPutObject (bucketName sampleEvent)
                (summaryKeyOf (lit "pdfs/book.pdf")) (lit "final") true;
              EvPutObject (bucketName sampleEvent)
                (detailedSummaryKeyOf (lit "pdfs/book.pdf"))
                (lit "summary-0") true]).
Proof.
  apply (one_segment_document
           (stubEnv (lit "Bir.") modelNumbered storeAccepting) sampleEvent []
           (lit "Bir.") (lit "pdfs/book.pdf") [] (lit "summary-0")
           (lit "final")).
  - vm_compute. split; [reflexivity | discriminate].
  - reflexivity.
  - reflexivity.
  - reflexivity.
  - reflexivity.
  - reflexivity.
  - intros h' b k content. reflexivity.
Defined.

(* ===================================================================== *)
(** ** A text without full stops, and a reduce step that fails *)
(* ===================================================================== *)

(** Without a full stop in the text every cut is the naive boundary. *)
Lemma nextEndIndex_no_period (text : jsstring) (chunkSize startIndex : Z) :
  periodFree text = true ->
  nextEndIndex text chunkSize startIndex = startIndex + chunkSize.
Proof.
  intros Hfree.
  destruct (nextEndIndex_cases text chunkSize startIndex)
    as [Heq|[_ [_ [_ [_ [Hat _]]]]]]; [exact Heq|].
  exfalso. unfold charAt in Hat.
  destruct (_ <? 0); [discriminate|].
  apply nth_error_In in Hat.
  unfold periodFree in Hfree. rewrite forallb_forall in Hfree.
  apply Hfree in Hat. discriminate.
Qed.

Lemma splitLoop_fixed_size (text : jsstring) (chunkSize : Z) :
  0 < chunkSize -> periodFree text = true ->
  forall fuel startIndex,
    0 <= startIndex ->
    (Z.to_nat (length text - startIndex) <= fuel)%nat ->
    exists out,
      splitLoop fuel text chunkSize startIndex [] = Some out /\
      List.concat out = skipn (Z.to_nat startIndex) text /\
      Forall (fun chunk => 0 < length chunk <= chunkSize) out /\
      Forall (fun chunk => length chunk = chunkSize) (removelast out).
Proof.
  intros Hcs Hfree. pose proof (length_nonneg text) as Hlen.
  induction fuel as [|fuel IH]; intros startIndex Hstart Hfuel;
    destruct (Z.le_gt_cases (length text) startIndex) as [Hout|Hin];
    try lia;
    try (rewrite splitLoop_done by assumption; exists [];
         repeat split; try constructor;
         simpl; symmetry; apply skipn_all2; unfold length in Hout; lia).
  rewrite splitLoop_step by assumption.
  rewrite (nextEndIndex_no_period text chunkSize startIndex Hfree).
  destruct (IH (startIndex + chunkSize)) as [out [Hrun [Hcat [Hall Hinner]]]];
    [lia | lia |].
  rewrite splitLoop_acc, Hrun. simpl option_map.
  eexists. split; [reflexivity|]. split; [|split].
  - simpl. rewrite Hcat. apply slice_then_rest; lia.
  - constructor; [|assumption].
    destruct (Z.le_gt_cases (length text) (startIndex + chunkSize)).
    + rewrite slice_to_end by lia. rewrite slice_length by lia. lia.
    + rewrite slice_length by lia. lia.
  - destruct out as [|chunk' out']; [constructor|].
    change (removelast (slice text startIndex (startIndex + chunkSize)
                          :: chunk' :: out'))
      with (slice text startIndex (startIndex + chunkSize)
              :: removelast (chunk' :: out')).
    constructor; [|assumption].
    destruct (Z.le_gt_cases (length text) (startIndex + chunkSize)).
    + rewrite splitLoop_done in Hrun by assumption. discriminate.
    + rewrite slice_length by lia. lia.
Qed.

(** X16: a text that holds no full stop is cut, at every chunk size above
    zero (also under 100), into chunks of exactly the chunk size, the last
    one being shorter or equal; the chunks make up the text. *)
Theorem text_without_full_stop (text : jsstring) (chunkSize : Z) :
  0 < chunkSize ->
  periodFree text = true ->
  exists chunks,
    splitReturns text chunkSize chunks /\
    List.concat chunks = text /\
    Forall (fun chunk => 0 < length chunk <= chunkSize) chunks /\
    Forall (fun chunk => length chunk = chunkSize) (removelast chunks).
Proof.
  intros Hcs Hfree.
  destruct (splitLoop_fixed_size text chunkSize Hcs Hfree
              (List.length text) 0) as [out [Hrun Hrest]];
    [lia | unfold length; lia |].
  exists out. split; [exists (List.length text); exact Hrun | exact Hrest].
Qed.

Lemma text_without_full_stop_witness :
  exists chunks,
    splitReturns plainText 7 chunks /\
    List.concat chunks = plainText /\
    Forall (fun chunk => 0 < length chunk <= 7) chunks /\
    Forall (fun chunk => length chunk = 7) (removelast chunks).
Proof.
  apply (text_without_full_stop plainText 7); [lia | reflexivity].
Defined.

(** X17: when every segment has been summarised and the reduce request
    fails, with whatever error, throttling included, the handler answers
    500 with the message of that error right after that one request, and
    nothing has been stored: the summaries of the segments are lost. *)
Theorem failed_reduce_stores_nothing (env : Env) (event : S3Event)
    (h h2 : History) (text key : jsstring) (pdfBuffer : list N)
    (chunks summaries : list jsstring) (error : Error) :
  let bucket := bucketName event in
  let req := FinalPrompt (join sectionSeparator summaries) in
  decodeURIComponent env (replaceAllChar 43%N 32%N (objectKey event))
    = Normal key ->
  s3GetObject env h bucket key = Normal pdfBuffer ->
  pdfParse env pdfBuffer = Normal text ->
  splitReturns text defaultChunkSize chunks ->
  processChunksSequentially env chunks (h ++ [EvGetObject bucket key])
    = (Normal summaries, h2) ->
  bedrockSend env (h2 ++ [EvWait 3000]) req = Throw error ->
  handler env event h =
  Some (failureResponse error, (h2 ++ [EvWait 3000]) ++ [EvInvoke req]) /\
  artifacts ((h2 ++ [EvWait 3000]) ++ [EvInvoke req]) = artifacts h.
Proof.
  intros bucket req Hkey Hget Hparse Hsplit Hproc Hsend.
  assert (Hread : readDocument env event h
                  = (Normal (key, text), h ++ [EvGetObject bucket key])).
  { unfold readDocument, bind, liftC, getObject, ret.
    rewrite Hkey. fold bucket. rewrite Hget, Hparse. reflexivity. }
  destruct (handler_after_read _ _ _ _ _ _ Hread) as [chunks' [Hfuel Hrun]].
  assert (chunks' = chunks) as ->.
  { apply (splitReturns_unique text defaultChunkSize);
      [eexists; exact Hfuel | exact Hsplit]. }
  split.
  - rewrite Hrun. unfold catchAll. rewrite summariseAndStore_eq.
    fold bucket. rewrite Hproc. cbv beta iota zeta. fold req.
    rewrite Hsend. reflexivity.
  - pose proof (processChunksSequentially_artifacts env chunks
                  (h ++ [EvGetObject bucket key])) as Hart.
    rewrite Hproc in Hart. simpl snd in Hart.
    rewrite !artifacts_app, Hart, artifacts_app. simpl.
    rewrite !app_nil_r. reflexivity.
Qed.

Lemma failed_reduce_stores_nothing_witness :
  let env := stubEnv (lit "Bir.") (modelFailingReduce throttledError)
               storeAccepting in
  let h2 := [EvGetObject (lit "books") (lit "pdfs/book.pdf");
             EvInvoke (ChunkPrompt (lit "Bir.") 1 1)] in
  let req := FinalPrompt (join sectionSeparator [lit "summary-0"]) in
  handler env sampleEvent [] =
  Some (failureResponse throttledError,
        (h2 ++ [EvWait 3000]) ++ [EvInvoke req]) /\
  artifacts ((h2 ++ [EvWait 3000]) ++ [EvInvoke req]) = artifacts [].
Proof.
  apply (failed_reduce_stores_nothing
           (stubEnv (lit "Bir.") (modelFailingReduce throttledError)
              storeAccepting)
           sampleEvent []
           [EvGetObject (lit "books") (lit "pdfs/book.pdf");
            EvInvoke (ChunkPrompt (lit "Bir.") 1 1)]
           (lit "Bir.") (lit "pdfs/book.pdf") [] [lit "Bir."]
           [lit "summary-0"] throttledError).
  - reflexivity.
  - reflexivity.
  - reflexivity.
  - exists 1%nat. reflexivity.
  - reflexivity.
  - reflexivity.
Defined.
